(** * data-query-api: a shallow embedding of the Flask handlers

    The development follows the two Python modules of the service:

    - [app.py]: the REST handlers [get_trips], [get_trip_stats],
      [upload_file] and [trigger_job];
    - [gql_schema.py]: the [DateTime] scalar and the [allTrips] resolver.

    Handlers that talk to the object store and to the queue are written in
    a small state-and-exception monad over a [World] that holds the
    generator of [uuid4], the contents of the bucket and the chronological
    log of every call made to the two clients.  The read-only handlers are
    functions of the contents of the [trips] table.  Everything the
    service gets from outside (configuration, library functions, the two
    managed services) is gathered in one record, [Env]; the [datetime]
    class of the Python library is modelled in full, since the [DateTime]
    scalar is nothing but its [isoformat] and [fromisoformat]. *)

From Stdlib Require Import ZArith QArith Floats String Ascii List Lia.
From stdpp Require Import base option list strings gmap.

Local Open Scope string_scope.
Local Open Scope list_scope.

(** ** Python values *)

(** [datetime.datetime]: the seven fields, and what [utcoffset()] gives
    in microseconds ([None] for a naive value).  The columns of the
    [trips] table are [timestamp without time zone], hence naive. *)
Record datetime : Type := mk_datetime {
  year : Z;
  month : Z;
  day : Z;
  hour : Z;
  minute : Z;
  second : Z;
  microsecond : Z;
  utcoffset : option Z
}.

(** The objects the handlers pass to [jsonify], receive from
    [request.json], or get back from the database driver. *)
#[local] Unset Elimination Schemes.
Inductive pyobj : Type :=
  | PNone
  | PBool (b : bool)
  | PInt (z : Z)
  | PFloat (f : float)
  | PDecimal (q : Q)
  | PStr (s : string)
  | PDateTime (d : datetime)
  | PList (l : list pyobj)
  | PDict (d : list (string * pyobj)).
#[local] Set Elimination Schemes.

(** A nullable value as the driver hands it over: [None] for [NULL]. *)
Definition of_option {A : Type} (f : A -> pyobj) (o : option A) : pyobj :=
  match o with
  | Some a => f a
  | None => PNone
  end.

(** The exceptions the modelled code can meet.  [ClientFault] stands for
    whatever the boto3 clients or the database driver raise (network,
    quota, permission, bad statement, ...), carrying the text that
    [str(e)] gives. *)
Inductive exn : Type :=
  | KeyError (key : string)
  | TypeError (msg : string)
  | ValueError (msg : string)
  | ClientFault (msg : string).

(** [str(e)]: a [KeyError] prints the [repr] of its key. *)
Definition str_exn (e : exn) : string :=
  match e with
  | KeyError k => "'" +:+ k +:+ "'"
  | TypeError m => m
  | ValueError m => m
  | ClientFault m => m
  end.

(** [d[k]] on a Python [dict] held as an association list. *)
Fixpoint dict_get (d : list (string * pyobj)) (k : string) : option pyobj :=
  match d with
  | [] => None
  | (k', v) :: d' => if String.eqb k' k then Some v else dict_get d' k
  end.

(** [data[k]] for an arbitrary decoded JSON value [data]: only a [dict]
    can be indexed by a string, and a missing key raises [KeyError]. *)
Definition getitem (data : pyobj) (k : string) : exn + pyobj :=
  match data with
  | PDict d =>
      match dict_get d k with
      | Some v => inr v
      | None => inl (KeyError k)
      end
  | PNone => inl (TypeError "'NoneType' object is not subscriptable")
  | PBool _ => inl (TypeError "'bool' object is not subscriptable")
  | PInt _ => inl (TypeError "'int' object is not subscriptable")
  | PFloat _ => inl (TypeError "'float' object is not subscriptable")
  | PDecimal _ => inl (TypeError "'decimal.Decimal' object is not subscriptable")
  | PStr _ => inl (TypeError "string indices must be integers")
  | PDateTime _ =>
      inl (TypeError "'datetime.datetime' object is not subscriptable")
  | PList _ => inl (TypeError "list indices must be integers or slices, not str")
  end.

(** ** The [datetime] class of the Python library

    [isoformat] and [fromisoformat] are not code of the service; they are
    modelled after the reference implementation of the [datetime] module
    ([isoformat], [_format_time], [_format_offset], [fromisoformat],
    [_parse_isoformat_date], [_parse_isoformat_time],
    [_parse_hh_mm_ss_ff]) as it stands in Python 3.7 to 3.10, with the
    strictness of the C accelerator: a digit field holds decimal digits
    only, and a text that stops right after the separator is refused.
    Python 3.11 and later read more texts (the basic format, week dates,
    fractions of any length, [Z]); what [isoformat] writes they read in
    the same way, and like the model they do not look at the separator
    and refuse a text that does not start with a four-digit year. *)

Local Open Scope Z_scope.

Definition digit (n : Z) : ascii :=
  match n with
  | 0 => "0" | 1 => "1" | 2 => "2" | 3 => "3" | 4 => "4"
  | 5 => "5" | 6 => "6" | 7 => "7" | 8 => "8" | _ => "9"
  end%char.

Definition digit_val (c : ascii) : option Z :=
  let n := Z.of_nat (nat_of_ascii c) in
  if (48 <=? n) && (n <=? 57) then Some (n - 48) else None.

(** The digits of a positive number, most significant first. *)
Fixpoint dec_digits (fuel : nat) (n : Z) : string :=
  match fuel with
  | O => ""
  | S fuel' =>
      if n =? 0 then ""
      else dec_digits fuel' (n / 10) +:+ String (digit (n mod 10)) ""
  end.

(** ["%0wd" % n] for [0 <= n]: at least [w] digits, zero-padded. *)
Fixpoint fmt_d (w : nat) (n : Z) : string :=
  match w with
  | O => dec_digits (Z.to_nat n) n
  | S w' => fmt_d w' (n / 10) +:+ String (digit (n mod 10)) ""
  end.

(** A field made of decimal digits only. *)
Fixpoint parse_digits (s : string) (acc : Z) : option Z :=
  match s with
  | EmptyString => Some acc
  | String c s' =>
      match digit_val c with
      | Some d => parse_digits s' (10 * acc + d)
      | None => None
      end
  end.

Definition parse_int (s : string) : option Z :=
  match s with
  | EmptyString => None
  | _ => parse_digits s 0
  end.

(** [_format_time(hh, mm, ss, us, 'auto')] *)
Definition format_time (hh mm ss us : Z) : string :=
  fmt_d 2 hh +:+ ":" +:+ fmt_d 2 mm +:+ ":" +:+ fmt_d 2 ss
  +:+ (if us =? 0 then "" else "." +:+ fmt_d 6 us).

(** [_format_offset(off)], with [off] in microseconds. *)
Definition format_offset (off : option Z) : string :=
  match off with
  | None => ""
  | Some o =>
      let sign := if o <? 0 then "-" else "+" in
      let a := Z.abs o in
      let hh := a / 3600000000 in
      let rest := a mod 3600000000 in
      let mm := rest / 60000000 in
      let ss := rest mod 60000000 in
      sign +:+ fmt_d 2 hh +:+ ":" +:+ fmt_d 2 mm
      +:+ (if ss =? 0 then ""
           else ":" +:+ fmt_d 2 (ss / 1000000)
                +:+ (if ss mod 1000000 =? 0 then ""
                     else "." +:+ fmt_d 6 (ss mod 1000000)))
  end.

(** [d.isoformat(sep)]; [str(d)] is [d.isoformat(' ')]. *)
Definition isoformat_sep (sep : ascii) (d : datetime) : string :=
  fmt_d 4 (year d) +:+ "-" +:+ fmt_d 2 (month d) +:+ "-" +:+ fmt_d 2 (day d)
  +:+ String sep (format_time (hour d) (minute d) (second d) (microsecond d))
  +:+ format_offset (utcoffset d).

Definition isoformat (d : datetime) : string := isoformat_sep "T" d.

Definition str_datetime (d : datetime) : string := isoformat_sep " " d.

(** The checks of the [datetime] and [timezone] constructors. *)
Definition is_leap (y : Z) : bool :=
  (y mod 4 =? 0) && (negb (y mod 100 =? 0) || (y mod 400 =? 0)).

Definition days_in_month (y m : Z) : Z :=
  match m with
  | 2 => if is_leap y then 29 else 28
  | 4 | 6 | 9 | 11 => 30
  | _ => 31
  end.

Definition check_fields (d : datetime) : bool :=
  (1 <=? year d) && (year d <=? 9999)
  && (1 <=? month d) && (month d <=? 12)
  && (1 <=? day d) && (day d <=? days_in_month (year d) (month d))
  && (0 <=? hour d) && (hour d <=? 23)
  && (0 <=? minute d) && (minute d <=? 59)
  && (0 <=? second d) && (second d <=? 59)
  && (0 <=? microsecond d) && (microsecond d <=? 999999)
  && match utcoffset d with
     | None => true
     | Some o => (-86400000000 <? o) && (o <? 86400000000)
     end.

(** [_parse_isoformat_date(dtstr)] on [dtstr = date_string[0:10]]. *)
Definition parse_isoformat_date (dtstr : string) : option (Z * Z * Z) :=
  y ← parse_int (substring 0 4 dtstr);
  c1 ← String.get 4 dtstr;
  if negb (Ascii.eqb c1 "-") then None else
  m ← parse_int (substring 5 2 dtstr);
  c2 ← String.get 7 dtstr;
  if negb (Ascii.eqb c2 "-") then None else
  d ← parse_int (substring 8 2 dtstr);
  if negb (String.length (substring 8 2 dtstr) =? 2)%nat then None else
  Some (y, m, d).

(** The loop of [_parse_hh_mm_ss_ff]: up to [S k] two-digit components
    separated by colons; gives the components read and what is left. *)
Fixpoint parse_comps (k : nat) (s : string) : option (list Z * string) :=
  match s with
  | String a (String b rest) =>
      v ← parse_int (String a (String b ""));
      match k, rest with
      | O, _ => Some ([v], rest)
      | _, EmptyString => Some ([v], "")
      | S k', String c rest' =>
          if Ascii.eqb c ":" then
            '(vs, r) ← parse_comps k' rest';
            Some (v :: vs, r)
          else None
      end
  | _ => None
  end.

(** [_parse_hh_mm_ss_ff(tstr)]: [HH[:MM[:SS[.fff[fff]]]]]. *)
Definition parse_hh_mm_ss_ff (tstr : string) : option (Z * Z * Z * Z) :=
  '(comps, rest) ← parse_comps 2 tstr;
  us ← match rest with
       | EmptyString => Some 0
       | String c frac =>
           if negb (Ascii.eqb c ".") then None
           else
             match String.length frac with
             | 3%nat => v ← parse_int frac; Some (v * 1000)
             | 6%nat => parse_int frac
             | _ => None
             end
       end;
  Some (nth 0 comps 0, nth 1 comps 0, nth 2 comps 0, us).

(** [tstr.find(c)] *)
Fixpoint find_char (c : ascii) (s : string) : option nat :=
  match s with
  | EmptyString => None
  | String c' s' =>
      if Ascii.eqb c' c then Some O else S <$> find_char c s'
  end.

(** [_parse_isoformat_time(tstr)]: the time and the offset, if any. *)
Definition parse_isoformat_time (tstr : string)
  : option (Z * Z * Z * Z * option Z) :=
  if (String.length tstr <? 2)%nat then None else
  let tz_pos :=
    match find_char "-" tstr with
    | Some i => Some i
    | None => find_char "+" tstr
    end in
  match tz_pos with
  | None =>
      '(hh, mm, ss, us) ← parse_hh_mm_ss_ff tstr;
      Some (hh, mm, ss, us, None)
  | Some i =>
      '(hh, mm, ss, us) ← parse_hh_mm_ss_ff (substring 0 i tstr);
      let tzstr := substring (S i) (String.length tstr - S i) tstr in
      let n := String.length tzstr in
      if negb ((n =? 5) || (n =? 8) || (n =? 15))%nat then None else
      '(th, tm, ts, tu) ← parse_hh_mm_ss_ff tzstr;
      let td := th * 3600000000 + tm * 60000000 + ts * 1000000 + tu in
      let tzsign :=
        match String.get i tstr with
        | Some c => if Ascii.eqb c "-" then -1 else 1
        | None => 1
        end in
      Some (hh, mm, ss, us, Some (tzsign * td))
  end.

(** [datetime.fromisoformat(date_string)]; [None] is [ValueError].  The
    date is the first ten characters; the eleventh character separates
    date and time and is not looked at; the time is read when the text
    goes on after the date. *)
Definition fromisoformat (date_string : string) : option datetime :=
  let dstr := substring 0 10 date_string in
  let tstr := substring 11 (String.length date_string - 11) date_string in
  '(y, m, d) ← parse_isoformat_date dstr;
  '(hh, mm, ss, us, tz) ←
     (if (String.length date_string <=? 10)%nat then Some (0, 0, 0, 0, None)
      else parse_isoformat_time tstr);
  let r := mk_datetime y m d hh mm ss us tz in
  if check_fields r then Some r else None.

(** Naive timestamps are ordered field by field. *)
Definition datetime_key (d : datetime) : list Z :=
  [year d; month d; day d; hour d; minute d; second d; microsecond d].

Fixpoint lex_leb (a b : list Z) : bool :=
  match a, b with
  | [], _ => true
  | _ :: _, [] => false
  | x :: a', y :: b' => (x <? y) || ((x =? y) && lex_leb a' b')
  end.

Definition datetime_leb (a b : datetime) : bool :=
  lex_leb (datetime_key a) (datetime_key b).

Definition option_Z_eqb (a b : option Z) : bool :=
  match a, b with
  | None, None => true
  | Some x, Some y => x =? y
  | _, _ => false
  end.

Definition datetime_eqb (a b : datetime) : bool :=
  (year a =? year b) && (month a =? month b) && (day a =? day b)
  && (hour a =? hour b) && (minute a =? minute b) && (second a =? second b)
  && (microsecond a =? microsecond b)
  && option_Z_eqb (utcoffset a) (utcoffset b).

(** ** [models.py] *)

Module Vendor.
Record t : Type := {
  id : Z;
  vendor_id : Z
}.
End Vendor.

Module Trip.
(** Every column but the primary key is nullable. *)
Record t : Type := {
  id : string;
  vendor_id : option Z;
  pickup_datetime : option datetime;
  dropoff_datetime : option datetime;
  passenger_count : option Z;
  pickup_longitude : option float;
  pickup_latitude : option float;
  dropoff_longitude : option float;
  dropoff_latitude : option float;
  store_and_fwd_flag : option string;
  trip_duration : option Z;
  trip_distance : option float
}.

(** [Trip.to_dict]: the loaded column attributes, without the ORM's
    [_sa_] bookkeeping. *)
Definition to_dict (self : t) : pyobj :=
  PDict [("id", PStr (id self));
         ("vendor_id", of_option PInt (vendor_id self));
         ("pickup_datetime", of_option PDateTime (pickup_datetime self));
         ("dropoff_datetime", of_option PDateTime (dropoff_datetime self));
         ("passenger_count", of_option PInt (passenger_count self));
         ("pickup_longitude", of_option PFloat (pickup_longitude self));
         ("pickup_latitude", of_option PFloat (pickup_latitude self));
         ("dropoff_longitude", of_option PFloat (dropoff_longitude self));
         ("dropoff_latitude", of_option PFloat (dropoff_latitude self));
         ("store_and_fwd_flag", of_option PStr (store_and_fwd_flag self));
         ("trip_duration", of_option PInt (trip_duration self));
         ("trip_distance", of_option PFloat (trip_distance self))].
End Trip.

(** ** Requests and responses *)

(** An uploaded part: the client-supplied name and the payload. *)
Record FileStorage : Type := {
  filename : string;
  stream : string
}.

(** The parts of [flask.request] the handlers read: [request.files] and
    [request.args] (multi-dicts, kept as association lists) and
    [request.json], the decoded body of a request sent as JSON.  (A
    request that carries no JSON is answered by the framework when
    [request.json] is read; such requests are not described here.) *)
Record Request : Type := {
  files : list (string * FileStorage);
  req_json : pyobj;
  args : list (string * string)
}.

(** [request.files[k]] and [request.args.get(k)]: the first value under
    the key. *)
Fixpoint multidict_get {A : Type} (d : list (string * A)) (k : string)
  : option A :=
  match d with
  | [] => None
  | (k', v) :: d' => if String.eqb k' k then Some v else multidict_get d' k
  end.

(** What a view function hands back to Flask: a body with a status, or an
    exception that escaped the function. *)
Inductive Outcome : Type :=
  | Response (body : pyobj) (status : Z)
  | Unhandled (e : exn).

(** ** The world outside the process *)

(** The keyword arguments of [sqs_client.send_message]. *)
Record SendArgs : Type := {
  QueueUrl : string;
  MessageBody : string;
  MessageGroupId : string;
  MessageDeduplicationId : string
}.

(** One entry per call to a client, with what the call gave back. *)
Inductive Event : Type :=
  | S3Upload (bucket key : string) (result : option exn)
  | SqsSend (a : SendArgs) (result : exn + string).

Record World : Type := {
  rng : nat;
  objects : gmap (string * string) string;
  trace : list Event;
  trips : list Trip.t
}.

Definition tick (w : World) : World :=
  {| rng := S (rng w); objects := objects w; trace := trace w;
     trips := trips w |}.

Definition log (ev : Event) (w : World) : World :=
  {| rng := rng w; objects := objects w; trace := trace w ++ [ev];
     trips := trips w |}.

Definition put_object (bucket key data : string) (w : World) : World :=
  {| rng := rng w;
     objects := <[(bucket, key) := data]> (objects w);
     trace := trace w;
     trips := trips w |}.

(** Everything the service is given: configuration read from the
    environment at start-up, library functions, and the behaviour of the
    managed services. *)
Record Env : Type := {
  S3_BUCKET : string;
  SQS_QUEUE_URL : string;
  (** the [n]-th token the process draws, [str(uuid4())] *)
  uuid_gen : nat -> string;
  (** werkzeug's [secure_filename] *)
  secure_filename : string -> string;
  (** [jsonify(v).get_data(as_text=True)] *)
  json_text : pyobj -> string;
  (** Python's [float(s)]; [None] is [ValueError] *)
  float_of_str : string -> option float;
  (** whether a client call fails, given all that happened so far *)
  s3_fault : World -> string -> string -> FileStorage -> option exn;
  sqs_fault : World -> SendArgs -> option exn;
  (** the message id the queue assigns to an accepted send *)
  sqs_message_id : World -> SendArgs -> string;
  (** the database's reading of a timestamp literal; [None] is an error *)
  timestamp_in : string -> option datetime;
  (** the database's [=] on [double precision] *)
  float8_eq : float -> float -> bool
}.

(** ** State and exceptions *)

Definition M (A : Type) : Type := World -> (exn + A) * World.

Definition ret {A : Type} (a : A) : M A := fun w => (inr a, w).

Definition raise {A : Type} (e : exn) : M A := fun w => (inl e, w).

Definition bind {A B : Type} (m : M A) (k : A -> M B) : M B :=
  fun w =>
    match m w with
    | (inr a, w') => k a w'
    | (inl e, w') => (inl e, w')
    end.

(** [try: body except Exception as e: handler(e)] *)
Definition try_except {A : Type} (body : M A) (handler : exn -> M A) : M A :=
  fun w =>
    match body w with
    | (inr a, w') => (inr a, w')
    | (inl e, w') => handler e w'
    end.

(** A computation whose failure is data becomes one that raises. *)
Definition lift {A : Type} (r : exn + A) : M A :=
  match r with
  | inr a => ret a
  | inl e => raise e
  end.

Notation "'do' x <- m ; k" := (bind m (fun x => k))
  (at level 10, x name, m at level 100, k at level 200).
Notation "'exec' m ; k" := (bind m (fun _ => k))
  (at level 10, m at level 100, k at level 200).

(** A view function is run to an [Outcome]. *)
Definition run_view (m : M (pyobj * Z)) (w : World) : Outcome * World :=
  match m w with
  | (inr (body, status), w') => (Response body status, w')
  | (inl e, w') => (Unhandled e, w')
  end.

Definition error_body (e : exn) : pyobj :=
  PDict [("error", PStr (str_exn e))].

(** ** The query layer: what the ORM sends and what the database answers *)

(** A bound of [BETWEEN]: the REST handler passes the text of the query
    parameter, the GraphQL resolver a parsed [datetime]. *)
Inductive bound : Type :=
  | BText (s : string)
  | BDate (d : datetime).

(** The criteria the handlers put in [query.filter(...)]. *)
Inductive criterion : Type :=
  | PickupBetween (lo hi : bound)
  | PickupLongitudeEq (v : float)
  | PickupLatitudeEq (v : float)
  | VendorIdEq (v : Z).

(** [session.query(Trip)] with its filters, in the order they were added,
    and its [limit]/[offset]. *)
Record Query : Type := {
  criteria : list criterion;
  q_limit : option Z;
  q_offset : option Z
}.

Definition query_Trip : Query :=
  {| criteria := []; q_limit := None; q_offset := None |}.

Definition filter_by (c : criterion) (q : Query) : Query :=
  {| criteria := criteria q ++ [c];
     q_limit := q_limit q; q_offset := q_offset q |}.

Definition limit (n : option Z) (q : Query) : Query :=
  {| criteria := criteria q; q_limit := n; q_offset := q_offset q |}.

Definition offset (n : option Z) (q : Query) : Query :=
  {| criteria := criteria q; q_limit := q_limit q; q_offset := n |}.

Section Database.

Variable E : Env.

Definition read_bound (b : bound) : exn + datetime :=
  match b with
  | BDate d => inr d
  | BText s =>
      match timestamp_in E s with
      | Some d => inr d
      | None =>
          inl (ClientFault ("invalid input syntax for type timestamp: "
                            +:+ s))
      end
  end.

(** A criterion becomes a test on rows; a comparison with [NULL] is not
    true, so the row is left out. *)
Definition compile_criterion (c : criterion) : exn + (Trip.t -> bool) :=
  match c with
  | PickupBetween lo hi =>
      match read_bound lo, read_bound hi with
      | inr l, inr h =>
          inr (fun t =>
                 match Trip.pickup_datetime t with
                 | Some d => datetime_leb l d && datetime_leb d h
                 | None => false
                 end)
      | inl e, _ => inl e
      | _, inl e => inl e
      end
  | PickupLongitudeEq v =>
      inr (fun t =>
             match Trip.pickup_longitude t with
             | Some x => float8_eq E x v
             | None => false
             end)
  | PickupLatitudeEq v =>
      inr (fun t =>
             match Trip.pickup_latitude t with
             | Some x => float8_eq E x v
             | None => false
             end)
  | VendorIdEq v =>
      inr (fun t =>
             match Trip.vendor_id t with
             | Some x => x =? v
             | None => false
             end)
  end.

Fixpoint where_ (cs : list criterion) (rows : list Trip.t)
  : exn + list Trip.t :=
  match cs with
  | [] => inr rows
  | c :: cs' =>
      match compile_criterion c with
      | inl e => inl e
      | inr p => where_ cs' (List.filter p rows)
      end
  end.

(** [OFFSET] then [LIMIT]; the database refuses a negative count. *)
Definition paginate (lim off : option Z) (rows : list Trip.t)
  : exn + list Trip.t :=
  match off with
  | Some o =>
      if o <? 0 then inl (ClientFault "OFFSET must not be negative")
      else
        let rest := drop (Z.to_nat o) rows in
        match lim with
        | Some n =>
            if n <? 0 then inl (ClientFault "LIMIT must not be negative")
            else inr (take (Z.to_nat n) rest)
        | None => inr rest
        end
  | None =>
      match lim with
      | Some n =>
          if n <? 0 then inl (ClientFault "LIMIT must not be negative")
          else inr (take (Z.to_nat n) rows)
      | None => inr rows
      end
  end.

(** [query.all()] *)
Definition all (q : Query) : M (list Trip.t) :=
  fun w =>
    match where_ (criteria q) (trips w) with
    | inl e => (inl e, w)
    | inr rows => (paginate (q_limit q) (q_offset q) rows, w)
    end.

End Database.

(** The aggregates [get_trip_stats] asks for. *)

(** [avg(col)]: the mean of the non-[NULL] values, [NULL] when there is
    none.  The mean is kept as the exact quotient; the database rounds
    it to the scale of its [numeric] division. *)
Definition sql_avg (col : list (option Z)) : option Q :=
  match omap (fun x => x) col with
  | [] => None
  | v :: vs =>
      Some (Qmake (fold_left Z.add (v :: vs) 0)
                  (Pos.of_nat (length (v :: vs))))
  end.

(** [date_trunc('day', ts)] *)
Definition date_trunc_day (d : datetime) : datetime :=
  mk_datetime (year d) (month d) (day d) 0 0 0 0 (utcoffset d).

Definition sql_day (t : Trip.t) : option datetime :=
  date_trunc_day <$> Trip.pickup_datetime t.

Definition day_eqb (a b : option datetime) : bool :=
  match a, b with
  | None, None => true
  | Some x, Some y => datetime_eqb x y
  | _, _ => false
  end.

(** [GROUP BY day] with [count(id)]: one row per day, [NULL] being a
    group of its own; [id] is the primary key, so every row counts. *)
Fixpoint bump (k : option datetime) (g : list (option datetime * Z))
  : list (option datetime * Z) :=
  match g with
  | [] => [(k, 1)]
  | (k', n) :: g' =>
      if day_eqb k' k then (k', n + 1) :: g' else (k', n) :: bump k g'
  end.

Definition group_by_day (rows : list Trip.t) : list (option datetime * Z) :=
  fold_left (fun g t => bump (sql_day t) g) rows [].

(** [count(distinct day)]: [NULL] is not counted. *)
Fixpoint distinct_days (seen : list datetime) (ks : list (option datetime))
  : list datetime :=
  match ks with
  | [] => seen
  | None :: ks' => distinct_days seen ks'
  | Some d :: ks' =>
      if existsb (datetime_eqb d) seen then distinct_days seen ks'
      else distinct_days (seen ++ [d]) ks'
  end.

Definition count_distinct_days (rows : list Trip.t) : Z :=
  Z.of_nat (length (distinct_days [] (map sql_day rows))).

(** [session.query(aggregate).scalar()] and [.all()] on an aggregate. *)
Definition select {A : Type} (f : list Trip.t -> A) : M A :=
  fun w => (inr (f (trips w)), w).

(** [str(day)] for a value of the [day] column. *)
Definition str_day (d : option datetime) : string :=
  match d with
  | Some d => str_datetime d
  | None => "None"
  end.

(** Truth values of the optional arguments. *)
Definition truthy_str (o : option string) : bool :=
  match o with
  | Some s => negb (String.eqb s "")
  | None => false
  end.

Definition truthy_int (o : option Z) : bool :=
  match o with
  | Some z => negb (z =? 0)
  | None => false
  end.

Definition truthy_datetime (o : option datetime) : bool :=
  match o with
  | Some _ => true
  | None => false
  end.

(** ** [app.py] *)

Section Handlers.

Variable E : Env.

(** [float(s)] *)
Definition py_float (s : string) : M float :=
  match float_of_str E s with
  | Some v => ret v
  | None => raise (ValueError ("could not convert string to float: '"
                               +:+ s +:+ "'"))
  end.

Definition get_trips_view (request : Request) : M (pyobj * Z) :=
  try_except
    (let start_date := multidict_get (args request) "start_date" in
     let end_date := multidict_get (args request) "end_date" in
     let pickup_long := multidict_get (args request) "pickup_long" in
     let pickup_lat := multidict_get (args request) "pickup_lat" in
     let query := query_Trip in
     let query :=
       match start_date, end_date with
       | Some s, Some e =>
           if truthy_str start_date && truthy_str end_date
           then filter_by (PickupBetween (BText s) (BText e)) query
           else query
       | _, _ => query
       end in
     do query <-
       (match pickup_long with
        | Some s =>
            if truthy_str pickup_long
            then do v <- py_float s;
                 ret (filter_by (PickupLongitudeEq v) query)
            else ret query
        | None => ret query
        end);
     do query <-
       (match pickup_lat with
        | Some s =>
            if truthy_str pickup_lat
            then do v <- py_float s;
                 ret (filter_by (PickupLatitudeEq v) query)
            else ret query
        | None => ret query
        end);
     do trips <- all E query;
     let trips_data := map Trip.to_dict trips in
     ret (PList trips_data, 200))
    (fun e => ret (error_body e, 500)).

Definition get_trips (request : Request) (w : World) : Outcome * World :=
  run_view (get_trips_view request) w.

Definition get_trip_stats_view : M (pyobj * Z) :=
  try_except
    (do avg_duration <- select (fun rows => sql_avg (map Trip.trip_duration rows));
     do trips_per_day <- select group_by_day;
     do total_days <- select count_distinct_days;
     let stats :=
       PDict [("average_trip_duration", of_option PDecimal avg_duration);
              ("total_days", PInt total_days);
              ("trips_per_day",
               PList (map (fun '(day, total) =>
                             PDict [("date", PStr (str_day day));
                                    ("total_trips", PInt total)])
                          trips_per_day))] in
     ret (stats, 200))
    (fun e => ret (error_body e, 500)).

Definition get_trip_stats (w : World) : Outcome * World :=
  run_view get_trip_stats_view w.

(** [str(uuid4())] *)
Definition uuid4 : M string :=
  fun w => (inr (uuid_gen E (rng w)), tick w).

(** [s3_client.upload_fileobj(file, bucket, key)] *)
Definition upload_fileobj (file : FileStorage) (bucket key : string)
  : M unit :=
  fun w =>
    match s3_fault E w bucket key file with
    | Some e => (inl e, log (S3Upload bucket key (Some e)) w)
    | None =>
        (inr tt,
         log (S3Upload bucket key None)
             (put_object bucket key (stream file) w))
    end.

(** [sqs_client.send_message] called with the keywords [a], and the
    [MessageId] entry of its answer *)
Definition send_message (a : SendArgs) : M string :=
  fun w =>
    match sqs_fault E w a with
    | Some e => (inl e, log (SqsSend a (inl e)) w)
    | None =>
        let mid := sqs_message_id E w a in
        (inr mid, log (SqsSend a (inr mid)) w)
    end.

Definition upload_file_view (request : Request) : M (pyobj * Z) :=
  match multidict_get (files request) "file" with
  | None => ret (PDict [("error", PStr "No file part in the request")], 400)
  | Some file =>
      if String.eqb (filename file) "" then
        ret (PDict [("error", PStr "No file selected")], 400)
      else
        try_except
          (let original_filename := secure_filename E (filename file) in
           do tok <- uuid4;
           let unique_filename := tok +:+ "_" +:+ original_filename in
           exec upload_fileobj file (S3_BUCKET E) unique_filename;
           let sqs_message :=
             PDict [("s3_key", PStr unique_filename);
                    ("bucket_name", PStr (S3_BUCKET E));
                    ("MessageGroupId", PStr "ETL_JOB")] in
           do dedup <- uuid4;
           do sqs_message_id <-
             send_message
               {| QueueUrl := SQS_QUEUE_URL E;
                  MessageBody := json_text E sqs_message;
                  MessageGroupId := "etl-job";
                  MessageDeduplicationId := dedup |};
           ret (PDict [("message",
                        PStr "File uploaded and ETL job queued successfully!");
                       ("s3_key", PStr unique_filename);
                       ("sqs_message_id", PStr sqs_message_id)], 200))
          (fun e => ret (error_body e, 500))
  end.

Definition upload_file (request : Request) (w : World) : Outcome * World :=
  run_view (upload_file_view request) w.

Definition trigger_job_view (request : Request) : M (pyobj * Z) :=
  let data := req_json request in
  do s3_key <- lift (getitem data "s3_key");
  try_except
    (let sqs_message :=
       PDict [("s3_key", s3_key);
              ("bucket_name", PStr (S3_BUCKET E));
              ("MessageGroupId", PStr "ETL_JOB")] in
     do dedup <- uuid4;
     do sqs_message_id <-
       send_message
         {| QueueUrl := SQS_QUEUE_URL E;
            MessageBody := json_text E sqs_message;
            MessageGroupId := "etl-job";
            MessageDeduplicationId := dedup |};
     ret (PDict [("message", PStr "ETL job queued successfully!");
                 ("s3_key", s3_key);
                 ("sqs_message_id", PStr sqs_message_id)], 200))
    (fun e => ret (error_body e, 500)).

Definition trigger_job (request : Request) (w : World) : Outcome * World :=
  run_view (trigger_job_view request) w.

End Handlers.

(** ** [gql_schema.py] *)

Definition serialize_datetime (value : pyobj) : exn + string :=
  match value with
  | PDateTime d => inr (isoformat d)
  | _ => inl (ValueError "Expected a datetime object")
  end.



Definition resolve_all_trips (E : Env) (limit_ offset_ : option Z)
    (vendor_id : option Z) (start_date end_date : option datetime)
  : M (list Trip.t) :=
  let query := query_Trip in
  let query :=
    match vendor_id with
    | Some v =>
        if truthy_int vendor_id then filter_by (VendorIdEq v) query else query
    | None => query
    end in
  let query :=
    match start_date, end_date with
    | Some s, Some e =>
        if truthy_datetime start_date && truthy_datetime end_date
        then filter_by (PickupBetween (BDate s) (BDate e)) query
        else query
    | _, _ => query
    end in
  all E (offset offset_ (limit limit_ query)).

(** ** What a client reads off a response, and what a reader of the log
    sees *)

Definition response_field (k : string) (o : Outcome) : option string :=
  match o with
  | Response (PDict d) 200 =>
      match dict_get d k with
      | Some (PStr v) => Some v
      | _ => None
      end
  | _ => None
  end.

(** The storage key and the message id of a successful answer of
    [upload_file] or [trigger_job]. *)
Definition response_key : Outcome -> option string := response_field "s3_key".

Definition response_message_id : Outcome -> option string :=
  response_field "sqs_message_id".

Definition is_send (ev : Event) : bool :=
  match ev with
  | SqsSend _ _ => true
  | S3Upload _ _ _ => false
  end.

(** The tokens [uuid4] has produced after [n] draws. *)
Definition draws (E : Env) (n : nat) : list string :=
  map (uuid_gen E) (seq 0 n).

(** The job message as the design states it (intake step 5, repeated by
    the trigger): a body with the storage key, the bucket name and the
    fixed group tag, sent to the configured queue under the constant group
    id with the given deduplication token. *)
Definition job_message (E : Env) (s3_key : pyobj) (dedup : string) : SendArgs :=
  {| QueueUrl := SQS_QUEUE_URL E;
     MessageBody :=
       json_text E (PDict [("s3_key", s3_key);
                           ("bucket_name", PStr (S3_BUCKET E));
                           ("MessageGroupId", PStr "ETL_JOB")]);
     MessageGroupId := "etl-job";
     MessageDeduplicationId := dedup |}.

(** The request without its [start_date] and [end_date] parameters. *)
Definition without_time_range (request : Request) : Request :=
  {| files := files request;
     req_json := req_json request;
     args := List.filter
               (fun kv => negb (String.eqb kv.1 "start_date")
                          && negb (String.eqb kv.1 "end_date"))
               (args request) |}.

(** ** The runs of [upload_file]

    The five ways through the handler, each with the answer and the world
    it leaves behind. *)

Definition storage_key (E : Env) (w : World) (f : FileStorage) : string :=
  uuid_gen E (rng w) +:+ "_" +:+ secure_filename E (filename f).

(** The world once the object is written. *)
Definition stored (E : Env) (w : World) (f : FileStorage) : World :=
  log (S3Upload (S3_BUCKET E) (storage_key E w f) None)
      (put_object (S3_BUCKET E) (storage_key E w f) (stream f) (tick w)).

(** The message [upload_file] then sends, and the world it is sent in. *)
Definition upload_send (E : Env) (w : World) (f : FileStorage) : SendArgs :=
  job_message E (PStr (storage_key E w f)) (uuid_gen E (S (rng w))).

Definition sending (E : Env) (w : World) (f : FileStorage) : World :=
  tick (stored E w f).

Inductive upload_run (E : Env) (request : Request) (w : World)
  : Outcome -> World -> Prop :=
  | run_no_file :
      multidict_get (files request) "file" = None ->
      upload_run E request w
        (Response (PDict [("error", PStr "No file part in the request")]) 400)
        w
  | run_no_name f :
      multidict_get (files request) "file" = Some f ->
      filename f = "" ->
      upload_run E request w
        (Response (PDict [("error", PStr "No file selected")]) 400) w
  | run_store_fails f e :
      multidict_get (files request) "file" = Some f ->
      filename f <> "" ->
      s3_fault E (tick w) (S3_BUCKET E) (storage_key E w f) f = Some e ->
      upload_run E request w
        (Response (error_body e) 500)
        (log (S3Upload (S3_BUCKET E) (storage_key E w f) (Some e)) (tick w))
  | run_queue_fails f e :
      multidict_get (files request) "file" = Some f ->
      filename f <> "" ->
      s3_fault E (tick w) (S3_BUCKET E) (storage_key E w f) f = None ->
      sqs_fault E (sending E w f) (upload_send E w f) = Some e ->
      upload_run E request w
        (Response (error_body e) 500)
        (log (SqsSend (upload_send E w f) (inl e)) (sending E w f))
  | run_queued f :
      multidict_get (files request) "file" = Some f ->
      filename f <> "" ->
      s3_fault E (tick w) (S3_BUCKET E) (storage_key E w f) f = None ->
      sqs_fault E (sending E w f) (upload_send E w f) = None ->
      let mid := sqs_message_id E (sending E w f) (upload_send E w f) in
      upload_run E request w
        (Response
           (PDict [("message",
                    PStr "File uploaded and ETL job queued successfully!");
                   ("s3_key", PStr (storage_key E w f));
                   ("sqs_message_id", PStr mid)]) 200)
        (log (SqsSend (upload_send E w f) (inr mid)) (sending E w f)).

(** ** A concrete environment, for running the handlers *)

Module Demo.

(** Twelve decimal digits of the draw number under a fixed head: one
    token per draw, all of the length of a UUID. *)
Definition token (n : nat) : string :=
  let z := Z.of_nat n in
  "3f2b8c1e-9a47-4d05-b6e1-"
  +:+ String (digit (z / 100000000000 mod 10))
     (String (digit (z / 10000000000 mod 10))
     (String (digit (z / 1000000000 mod 10))
     (String (digit (z / 100000000 mod 10))
     (String (digit (z / 10000000 mod 10))
     (String (digit (z / 1000000 mod 10))
     (String (digit (z / 100000 mod 10))
     (String (digit (z / 10000 mod 10))
     (String (digit (z / 1000 mod 10))
     (String (digit (z / 100 mod 10))
     (String (digit (z / 10 mod 10))
     (String (digit (z mod 10)) ""))))))))))).

Definition safe_char (c : ascii) : bool :=
  let n := nat_of_ascii c in
  ((48 <=? n) && (n <=? 57) || (65 <=? n) && (n <=? 90)
   || (97 <=? n) && (n <=? 122) || (n =? 95) || (n =? 46) || (n =? 45))%nat.

(** Keeps the characters a storage key may hold. *)
Fixpoint sanitize (s : string) : string :=
  match s with
  | EmptyString => ""
  | String c s' =>
      if safe_char c then String c (sanitize s') else sanitize s'
  end.

(** Renders the flat dictionaries of strings the handlers send. *)
Definition quoted (s : string) : string :=
  String (ascii_of_nat 34) (s +:+ String (ascii_of_nat 34) "").

Definition render (v : pyobj) : string :=
  match v with
  | PDict d =>
      "{"
      +:+ fold_right
            (fun kv acc =>
               quoted kv.1 +:+ ": "
               +:+ match kv.2 with
                   | PStr s => quoted s
                   | _ => "null"
                   end
               +:+ (if String.eqb acc "}" then acc else ", " +:+ acc))
            "}" d
  | _ => "null"
  end.

(** Whole numbers only. *)
Definition to_float (s : string) : option float :=
  match s with
  | String "-" s' =>
      (fun z => PrimFloat.opp (PrimFloat.of_uint63 (Uint63.of_Z z)))
        <$> parse_int s'
  | _ => (fun z => PrimFloat.of_uint63 (Uint63.of_Z z)) <$> parse_int s
  end.

Definition message_id (w : World) (a : SendArgs) : string :=
  "msg-" +:+ MessageDeduplicationId a.

(** Both services answer. *)
Definition env : Env :=
  {| S3_BUCKET := "taxi-etl";
     SQS_QUEUE_URL := "https://sqs.ap-south-1.amazonaws.com/1/etl.fifo";
     uuid_gen := token;
     secure_filename := sanitize;
     json_text := render;
     float_of_str := to_float;
     s3_fault := fun _ _ _ _ => None;
     sqs_fault := fun _ _ => None;
     sqs_message_id := message_id;
     timestamp_in := fromisoformat;
     float8_eq := PrimFloat.eqb |}.

(** The object store refuses the write. *)
Definition env_store_down : Env :=
  {| S3_BUCKET := S3_BUCKET env;
     SQS_QUEUE_URL := SQS_QUEUE_URL env;
     uuid_gen := token;
     secure_filename := sanitize;
     json_text := render;
     float_of_str := to_float;
     s3_fault := fun _ _ _ _ => Some (ClientFault "AccessDenied");
     sqs_fault := fun _ _ => None;
     sqs_message_id := message_id;
     timestamp_in := fromisoformat;
     float8_eq := PrimFloat.eqb |}.

(** The queue refuses the send. *)
Definition env_queue_down : Env :=
  {| S3_BUCKET := S3_BUCKET env;
     SQS_QUEUE_URL := SQS_QUEUE_URL env;
     uuid_gen := token;
     secure_filename := sanitize;
     json_text := render;
     float_of_str := to_float;
     s3_fault := fun _ _ _ _ => None;
     sqs_fault := fun _ _ => Some (ClientFault "QueueDoesNotExist");
     sqs_message_id := message_id;
     timestamp_in := fromisoformat;
     float8_eq := PrimFloat.eqb |}.

Definition world0 : World :=
  {| rng := 0; objects := ∅; trace := []; trips := [] |}.

Definition csv : FileStorage :=
  {| filename := "../trips 2016.csv"; stream := "id,vendor_id" |}.

Definition upload_request : Request :=
  {| files := [("file", csv)]; req_json := PNone; args := [] |}.

Definition trigger_request (key : string) : Request :=
  {| files := []; req_json := PDict [("s3_key", PStr key)]; args := [] |}.

Definition bare_request : Request :=
  {| files := []; req_json := PDict []; args := [] |}.

(** A naive timestamp, and one with an offset of minus five hours and a
    half. *)
Definition pickup : datetime := mk_datetime 2016 3 14 17 24 55 0 None.

Definition aware : datetime :=
  mk_datetime 2020 2 29 23 59 59 999999 (Some (-19800000000)).

Definition trip (id : string) (vendor : Z) (at_ : datetime)
    (long lat : float) : Trip.t :=
  {| Trip.id := id;
     Trip.vendor_id := Some vendor;
     Trip.pickup_datetime := Some at_;
     Trip.dropoff_datetime := None;
     Trip.passenger_count := Some 1;
     Trip.pickup_longitude := Some long;
     Trip.pickup_latitude := Some lat;
     Trip.dropoff_longitude := None;
     Trip.dropoff_latitude := None;
     Trip.store_and_fwd_flag := Some "N";
     Trip.trip_duration := Some 455;
     Trip.trip_distance := None |}.

Definition trip_a : Trip.t := trip "id1" 1 pickup (-73)%float 40%float.

Definition trip_b : Trip.t :=
  trip "id2" 2 (mk_datetime 2016 3 15 8 0 0 0 None) (-74)%float 40%float.

(** A table with two trips, none of vendor 0. *)
Definition world_trips : World :=
  {| rng := 0; objects := ∅; trace := []; trips := [trip_a; trip_b] |}.

Definition query_request (params : list (string * string)) : Request :=
  {| files := []; req_json := PNone; args := params |}.

End Demo.


(** ** The other resolvers of [gql_schema.py]

    [limit] and [offset] on any table: [OFFSET] then [LIMIT], a negative
    count being refused, as for the trips. *)
Definition page {A : Type} (lim off : option Z) (rows : list A)
  : exn + list A :=
  match off with
  | Some o =>
      if o <? 0 then inl (ClientFault "OFFSET must not be negative")
      else
        let rest := drop (Z.to_nat o) rows in
        match lim with
        | Some n =>
            if n <? 0 then inl (ClientFault "LIMIT must not be negative")
            else inr (take (Z.to_nat n) rest)
        | None => inr rest
        end
  | None =>
      match lim with
      | Some n =>
          if n <? 0 then inl (ClientFault "LIMIT must not be negative")
          else inr (take (Z.to_nat n) rows)
      | None => inr rows
      end
  end.

(** [query.first()]: the first row, or [None]. *)
Definition first {A : Type} (rows : list A) : option A := head rows.

(** [session.query(Trip).filter_by(id=id).first()] *)
Definition resolve_trip_by_id (id : string) : M (option Trip.t) :=
  fun w =>
    (inr (first (List.filter (fun t => String.eqb (Trip.id t) id) (trips w))),
     w).

(** The vendor resolvers read the [vendors] table of the session, here
    an argument. *)
Definition resolve_all_vendors (vendors : list Vendor.t)
    (limit_ offset_ : option Z) : exn + list Vendor.t :=
  page limit_ offset_ vendors.

(** [session.query(Vendor).filter_by(id=id).first()] *)
Definition resolve_vendor_by_id (vendors : list Vendor.t) (id : Z)
  : option Vendor.t :=
  first (List.filter (fun v => Vendor.id v =? id) vendors).

(** ** Reading the log and the answers *)

Definition sends (evs : list Event) : list Event := List.filter is_send evs.

Definition uploads (evs : list Event) : list Event :=
  List.filter (fun ev => negb (is_send ev)) evs.

Definition status_of (o : Outcome) : option Z :=
  match o with
  | Response _ status => Some status
  | Unhandled _ => None
  end.

(** The rows of an answer of [get_trips], and the per-day counts of an
    answer of [get_trip_stats]. *)
Definition between (lo hi : datetime) (t : Trip.t) : bool :=
  match Trip.pickup_datetime t with
  | Some d => datetime_leb lo d && datetime_leb d hi
  | None => false
  end.

Definition at_longitude (E : Env) (v : float) (t : Trip.t) : bool :=
  match Trip.pickup_longitude t with
  | Some x => float8_eq E x v
  | None => false
  end.

Definition at_latitude (E : Env) (v : float) (t : Trip.t) : bool :=
  match Trip.pickup_latitude t with
  | Some x => float8_eq E x v
  | None => false
  end.

Definition of_vendor (v : Z) (t : Trip.t) : bool :=
  match Trip.vendor_id t with
  | Some x => x =? v
  | None => false
  end.

(** Field-wise order of two timestamps, strict. *)
Definition datetime_ltb (a b : datetime) : bool := negb (datetime_leb b a).

(** The criteria [get_trips] ends up with: one for the time range when
    both bounds are given, one per coordinate that is given. *)
Definition range_criteria (request : Request) : list criterion :=
  match multidict_get (args request) "start_date",
        multidict_get (args request) "end_date" with
  | Some s, Some e =>
      if negb (String.eqb s "") && negb (String.eqb e "")
      then [PickupBetween (BText s) (BText e)]
      else []
  | _, _ => []
  end.

Definition coordinate_criteria (E : Env) (mk : float -> criterion)
    (arg : option string) : exn + list criterion :=
  match arg with
  | Some s =>
      if String.eqb s "" then inr []
      else
        match float_of_str E s with
        | Some v => inr [mk v]
        | None =>
            inl (ValueError ("could not convert string to float: '"
                             +:+ s +:+ "'"))
        end
  | None => inr []
  end.

(** What [allTrips] keeps of the table before paging. *)
Definition all_trips_keeps (vendor_id : option Z)
    (start_date end_date : option datetime) (t : Trip.t) : bool :=
  match vendor_id with
  | Some v => if v =? 0 then true else of_vendor v t
  | None => true
  end
  && match start_date, end_date with
     | Some s, Some e => between s e t
     | _, _ => true
     end.

(** The sum of the counts of a grouping. *)
Definition total_trips (g : list (option datetime * Z)) : Z :=
  fold_right Z.add 0 (map snd g).

(** The non-[NULL] values of a column. *)
Definition present {A : Type} (col : list (option A)) : list A :=
  omap (fun x => x) col.

(** Equality of timestamps is decidable. *)
#[global] Instance datetime_eq_dec : EqDecision datetime.
Proof. solve_decision. Defined.

(** Serving upload requests one after the other, and what the design
    asks of the log: every message handed to the queue names an object
    that is in the store. *)
Definition serve_uploads (E : Env) (requests : list Request) (w : World)
  : World :=
  fold_left (fun w request => (upload_file E request w).2) requests w.

Definition notified_stored (E : Env) (w : World) : Prop :=
  forall a r,
    SqsSend a r ∈ trace w ->
    exists key dedup,
      a = job_message E (PStr key) dedup
      /\ is_Some (objects w !! (S3_BUCKET E, key)).

(** * Properties *)

(** ** The runs of the upload handler *)

Lemma upload_file_run (E : Env) (request : Request) (w : World) :
  upload_run E request w (upload_file E request w).1
                         (upload_file E request w).2.
Proof.
  unfold upload_file, run_view, upload_file_view.
  destruct (multidict_get (files request) "file") as [f|] eqn:Hf.
  2: { apply run_no_file; exact Hf. }
  destruct (String.eqb (filename f) "") eqn:Hn.
  { apply String.eqb_eq in Hn. eapply run_no_name; eauto. }
  apply String.eqb_neq in Hn.
  unfold try_except, bind, uuid4, upload_fileobj. cbn [fst snd].
  fold (storage_key E w f).
  destruct (s3_fault E (tick w) (S3_BUCKET E) (storage_key E w f) f)
    as [e|] eqn:Hs3.
  { cbn. eapply run_store_fails; eauto. }
  fold (stored E w f). unfold send_message.
  change (rng (stored E w f)) with (S (rng w)).
  fold (sending E w f).
  change {| QueueUrl := SQS_QUEUE_URL E;
            MessageBody := _;
            MessageGroupId := "etl-job";
            MessageDeduplicationId := uuid_gen E (S (rng w)) |}
    with (upload_send E w f).
  destruct (sqs_fault E (sending E w f) (upload_send E w f)) as [e|] eqn:Hq.
  { cbn. eapply run_queue_fails; eauto. }
  cbn. eapply run_queued; eauto.
Qed.

Lemma trace_sending (E : Env) (w : World) (f : FileStorage) :
  trace (sending E w f)
  = trace w ++ [S3Upload (S3_BUCKET E) (storage_key E w f) None].
Proof. reflexivity. Qed.

Lemma objects_sending (E : Env) (w : World) (f : FileStorage) :
  objects (sending E w f)
  = <[(S3_BUCKET E, storage_key E w f) := stream f]> (objects w).
Proof. reflexivity. Qed.

Lemma rng_sending (E : Env) (w : World) (f : FileStorage) :
  rng (sending E w f) = S (S (rng w)).
Proof. reflexivity. Qed.

(** What each run adds to the log. *)
Lemma upload_run_events (E : Env) (request : Request) (w : World)
    (out : Outcome) (w' : World) :
  upload_run E request w out w' ->
  exists evs,
    trace w' = trace w ++ evs /\
    (evs = [] /\ w' = w
     \/ (exists f e,
           multidict_get (files request) "file" = Some f /\
           evs = [S3Upload (S3_BUCKET E) (storage_key E w f) (Some e)] /\
           out = Response (error_body e) 500 /\
           objects w' = objects w)
     \/ (exists f r,
           multidict_get (files request) "file" = Some f /\
           filename f <> "" /\
           evs = [S3Upload (S3_BUCKET E) (storage_key E w f) None;
                  SqsSend (upload_send E w f) r] /\
           objects w'
           = <[(S3_BUCKET E, storage_key E w f) := stream f]> (objects w) /\
           rng w' = S (S (rng w)) /\
           match r with
           | inl e => out = Response (error_body e) 500
           | inr mid =>
               mid = sqs_message_id E (sending E w f) (upload_send E w f) /\
               out = Response
                       (PDict [("message",
                                PStr "File uploaded and ETL job queued successfully!");
                               ("s3_key", PStr (storage_key E w f));
                               ("sqs_message_id", PStr mid)]) 200
           end)).
Proof.
  intros H. destruct H as [Hf|f Hf Hn|f e Hf Hn Hs|f e Hf Hn Hs Hq|f Hf Hn Hs Hq mid].
  - exists []. rewrite app_nil_r. auto.
  - exists []. rewrite app_nil_r. auto.
  - eexists. split; [reflexivity|]. right; left. exists f, e. auto.
  - eexists. split.
    + cbn [trace log]. rewrite trace_sending, <- app_assoc. reflexivity.
    + right; right. exists f, (inl e). cbn. auto 10.
  - eexists. split.
    + cbn [trace log]. rewrite trace_sending, <- app_assoc. reflexivity.
    + right; right. exists f, (inr mid). cbn. auto 10.
Qed.

(** ** The intake handler *)

(** C1.  In [upload_file], every send to the queue is preceded, in the
    same request, by a successful write of the object the message names,
    and that object is in the store when the handler returns; when the
    write fails the answer is a 500 carrying the failure and the queue is
    never called. *)
Theorem upload_write_before_notify (E : Env) (request : Request) (w : World) :
  exists evs,
    trace (upload_file E request w).2 = trace w ++ evs /\
    (forall (i : nat) a r,
        evs !! i = Some (SqsSend a r) ->
        exists key f (j : nat),
          (j < i)%nat /\
          evs !! j = Some (S3Upload (S3_BUCKET E) key None) /\
          a = job_message E (PStr key) (MessageDeduplicationId a) /\
          multidict_get (files request) "file" = Some f /\
          objects (upload_file E request w).2 !! (S3_BUCKET E, key)
          = Some (stream f)) /\
    (forall bucket key e,
        S3Upload bucket key (Some e) ∈ evs ->
        (upload_file E request w).1 = Response (error_body e) 500 /\
        Forall (fun ev => is_send ev = false) evs /\
        objects (upload_file E request w).2 = objects w).
Proof.
  destruct (upload_run_events _ _ _ _ _ (upload_file_run E request w))
    as (evs & Htr & Hcases).
  exists evs. split; [exact Htr|].
  destruct Hcases as [[-> _]|[(f & e & Hf & -> & Hout & Hobj)
                            |(f & r & Hf & Hn & -> & Hobj & _ & Hout)]].
  - split; [intros i a r Hi; destruct i; discriminate|].
    intros b k e Hin. inversion Hin.
  - split.
    + intros [|[|i]] a r Hi; discriminate.
    + intros b k e' Hin. apply list_elem_of_singleton in Hin.
      injection Hin as -> -> ->. repeat split; auto.
  - split.
    + intros [|[|i]] a r' Hi; try discriminate.
      injection Hi as <- <-.
      exists (storage_key E w f), f, 0%nat.
      repeat split; auto with lia.
      rewrite Hobj. apply lookup_insert_eq.
    + intros b k e Hin.
      apply elem_of_cons in Hin as [Hin|Hin]; [discriminate|].
      apply list_elem_of_singleton in Hin. discriminate.
Qed.

(** The store refuses the write: one call, no send, a 500. *)
Example upload_store_down :
  (upload_file Demo.env_store_down Demo.upload_request Demo.world0).1
  = Response (PDict [("error", PStr "AccessDenied")]) 500
  /\ trace (upload_file Demo.env_store_down Demo.upload_request Demo.world0).2
     = [S3Upload "taxi-etl"
          "3f2b8c1e-9a47-4d05-b6e1-000000000000_..trips2016.csv"
          (Some (ClientFault "AccessDenied"))]
  /\ objects (upload_file Demo.env_store_down Demo.upload_request Demo.world0).2
     = ∅.
Proof. repeat split. Qed.

(** C5.  A request without a [file] part, or whose [file] part has an
    empty name, is answered 400 with an error body, and the world is left
    as it was: nothing is written to the store and nothing is sent to the
    queue. *)
Theorem upload_rejects_bad_request (E : Env) (request : Request) (w : World) :
  multidict_get (files request) "file" = None
  \/ (exists f, multidict_get (files request) "file" = Some f
                /\ filename f = "") ->
  (exists msg,
      (upload_file E request w).1 = Response (PDict [("error", PStr msg)]) 400)
  /\ (upload_file E request w).2 = w
  /\ trace (upload_file E request w).2 = trace w
  /\ objects (upload_file E request w).2 = objects w.
Proof.
  intros Hbad.
  assert (Hrun := upload_file_run E request w).
  destruct (upload_file E request w) as [out w']. cbn [fst snd] in *.
  destruct Hrun as [Hf|f Hf Hn|f e Hf Hn Hs|f e Hf Hn Hs Hq|f Hf Hn Hs Hq mid];
    try (destruct Hbad as [Hb|(g & Hb & Hg)]; congruence); eauto.
Qed.

Lemma upload_rejects_bad_request_witness :
  (multidict_get (files Demo.bare_request) "file" = None
   \/ (exists f, multidict_get (files Demo.bare_request) "file" = Some f
                 /\ filename f = ""))
  /\ (exists msg,
         (upload_file Demo.env Demo.bare_request Demo.world0).1
         = Response (PDict [("error", PStr msg)]) 400)
  /\ (upload_file Demo.env Demo.bare_request Demo.world0).2 = Demo.world0
  /\ trace (upload_file Demo.env Demo.bare_request Demo.world0).2
     = trace Demo.world0
  /\ objects (upload_file Demo.env Demo.bare_request Demo.world0).2
     = objects Demo.world0.
Proof.
  split.
  - left. reflexivity.
  - apply (upload_rejects_bad_request Demo.env Demo.bare_request Demo.world0).
    left. reflexivity.
Defined.

(** C4.  When the log of an upload shows a successful write followed by
    a failed send, the answer is a 500 carrying the failure of the queue,
    these two calls are all the handler made, and the store is the old
    one with the object added: the write is not undone. *)
Theorem upload_queue_failure_leaves_object (E : Env) (request : Request)
    (w : World) (evs : list Event) (bucket key : string) (a : SendArgs)
    (e : exn) :
  trace (upload_file E request w).2 = trace w ++ evs ->
  S3Upload bucket key None ∈ evs ->
  SqsSend a (inl e) ∈ evs ->
  (upload_file E request w).1 = Response (error_body e) 500
  /\ evs = [S3Upload bucket key None; SqsSend a (inl e)]
  /\ exists f,
       multidict_get (files request) "file" = Some f
       /\ objects (upload_file E request w).2
          = <[(bucket, key) := stream f]> (objects w)
       /\ objects (upload_file E request w).2 !! (bucket, key)
          = Some (stream f).
Proof.
  intros Htr Hup Hsend.
  destruct (upload_run_events _ _ _ _ _ (upload_file_run E request w))
    as (evs' & Htr' & Hcases).
  rewrite Htr in Htr'. apply app_inv_head in Htr'. subst evs'.
  destruct Hcases as [[-> _]|[(f & e' & Hf & -> & Hout & Hobj)
                            |(f & r & Hf & Hn & -> & Hobj & _ & Hout)]].
  - inversion Hup.
  - apply list_elem_of_singleton in Hup. discriminate.
  - apply elem_of_cons in Hup as [Hup|Hup];
      [|apply list_elem_of_singleton in Hup; discriminate].
    apply elem_of_cons in Hsend as [Hsend|Hsend]; [discriminate|].
    apply list_elem_of_singleton in Hsend.
    injection Hup as -> ->. injection Hsend as -> <-.
    repeat split; auto.
    exists f. repeat split; auto.
    rewrite Hobj. apply lookup_insert_eq.
Qed.

Lemma upload_queue_failure_leaves_object_witness :
  exists evs bucket key a e,
    trace (upload_file Demo.env_queue_down Demo.upload_request Demo.world0).2
    = trace Demo.world0 ++ evs
    /\ S3Upload bucket key None ∈ evs
    /\ SqsSend a (inl e) ∈ evs
    /\ (upload_file Demo.env_queue_down Demo.upload_request Demo.world0).1
       = Response (error_body e) 500
    /\ evs = [S3Upload bucket key None; SqsSend a (inl e)]
    /\ exists f,
         multidict_get (files Demo.upload_request) "file" = Some f
         /\ objects
              (upload_file Demo.env_queue_down Demo.upload_request
                 Demo.world0).2
            = <[(bucket, key) := stream f]> (objects Demo.world0)
         /\ objects
              (upload_file Demo.env_queue_down Demo.upload_request
                 Demo.world0).2 !! (bucket, key)
            = Some (stream f).
Proof.
  exists [S3Upload "taxi-etl"
            (storage_key Demo.env_queue_down Demo.world0 Demo.csv) None;
          SqsSend (upload_send Demo.env_queue_down Demo.world0 Demo.csv)
            (inl (ClientFault "QueueDoesNotExist"))],
    "taxi-etl", (storage_key Demo.env_queue_down Demo.world0 Demo.csv),
    (upload_send Demo.env_queue_down Demo.world0 Demo.csv),
    (ClientFault "QueueDoesNotExist").
  assert (H1 :
    trace (upload_file Demo.env_queue_down Demo.upload_request Demo.world0).2
    = trace Demo.world0
      ++ [S3Upload "taxi-etl"
            (storage_key Demo.env_queue_down Demo.world0 Demo.csv) None;
          SqsSend (upload_send Demo.env_queue_down Demo.world0 Demo.csv)
            (inl (ClientFault "QueueDoesNotExist"))])
    by reflexivity.
  split; [exact H1|].
  split; [constructor|].
  split; [constructor; constructor|].
  apply (upload_queue_failure_leaves_object _ _ _ _ _ _ _ _ H1).
  - constructor.
  - constructor; constructor.
Defined.

(** ** Tokens *)

Lemma append_inj_length (s1 s2 t1 t2 : string) :
  String.length s1 = String.length s2 ->
  s1 +:+ t1 = s2 +:+ t2 ->
  s1 = s2 /\ t1 = t2.
Proof.
  revert s2. induction s1 as [|c s1 IH]; intros [|c' s2] Hlen Heq;
    try discriminate.
  - auto.
  - cbn in Hlen, Heq. injection Heq as -> Heq. injection Hlen as Hlen.
    destruct (IH _ Hlen Heq) as [-> ->]. auto.
Qed.

Lemma draws_lookup (E : Env) (n i : nat) :
  (i < n)%nat -> draws E n !! i = Some (uuid_gen E i).
Proof.
  intros Hi. unfold draws. change (map ?f ?l) with (f <$> l).
  rewrite list_lookup_fmap, lookup_seq_lt by exact Hi. reflexivity.
Qed.

(** Two different draws of a generator that never repeated itself give
    two different tokens. *)
Lemma draws_distinct (E : Env) (n i j : nat) :
  NoDup (draws E n) -> (i < j)%nat -> (j < n)%nat ->
  uuid_gen E i <> uuid_gen E j.
Proof.
  intros Hnd Hij Hj Heq.
  assert (i = j); [|lia].
  eapply (NoDup_lookup _ _ _ _ Hnd).
  - apply draws_lookup. lia.
  - rewrite Heq. apply draws_lookup. exact Hj.
Qed.

Lemma response_key_upload_run (E : Env) (request : Request) (w : World)
    (out : Outcome) (w' : World) (k : string) :
  upload_run E request w out w' ->
  response_key out = Some k ->
  exists f,
    multidict_get (files request) "file" = Some f
    /\ filename f <> ""
    /\ k = storage_key E w f
    /\ rng w' = S (S (rng w)).
Proof.
  intros Hrun Hk.
  destruct Hrun as [Hf|f Hf Hn|f e Hf Hn Hs|f e Hf Hn Hs Hq|f Hf Hn Hs Hq mid];
    try discriminate.
  injection Hk as <-. exists f. auto.
Qed.

(** C2.  The storage key a successful upload answers with is the token
    drawn from [uuid4] at that invocation, an underscore, and the
    sanitized name of the uploaded file; each invocation draws anew, so
    that a later upload, whatever its file name and content, gets another
    key as long as [uuid4] gives tokens of the length of a UUID and has
    not repeated itself. *)
Theorem upload_storage_key (E : Env) (req1 req2 : Request) (w w2 : World)
    (f1 f2 : FileStorage) (k1 k2 : string) :
  multidict_get (files req1) "file" = Some f1 ->
  multidict_get (files req2) "file" = Some f2 ->
  response_key (upload_file E req1 w).1 = Some k1 ->
  response_key (upload_file E req2 w2).1 = Some k2 ->
  (rng (upload_file E req1 w).2 <= rng w2)%nat ->
  (forall i, String.length (uuid_gen E i) = 36%nat) ->
  NoDup (draws E (S (rng w2))) ->
  k1 = uuid_gen E (rng w) +:+ "_" +:+ secure_filename E (filename f1)
  /\ k2 = uuid_gen E (rng w2) +:+ "_" +:+ secure_filename E (filename f2)
  /\ (rng w < rng (upload_file E req1 w).2)%nat
  /\ uuid_gen E (rng w) <> uuid_gen E (rng w2)
  /\ k1 <> k2.
Proof.
  intros Hf1 Hf2 Hk1 Hk2 Hlater Hlen Hnd.
  destruct (response_key_upload_run _ _ _ _ _ _ (upload_file_run E req1 w) Hk1)
    as (g1 & Hg1 & _ & -> & Hr1).
  destruct (response_key_upload_run _ _ _ _ _ _ (upload_file_run E req2 w2) Hk2)
    as (g2 & Hg2 & _ & -> & Hr2).
  assert (g1 = f1) as -> by congruence.
  assert (g2 = f2) as -> by congruence.
  assert (Hne : uuid_gen E (rng w) <> uuid_gen E (rng w2)).
  { apply (draws_distinct E (S (rng w2))); [exact Hnd|lia|lia]. }
  unfold storage_key. repeat split; auto; [lia|].
  intros Heq. apply append_inj_length in Heq as [Heq _].
  - contradiction.
  - rewrite !Hlen. reflexivity.
Qed.

(** The same file uploaded twice in a row. *)
Lemma upload_storage_key_witness :
  let w1 := (upload_file Demo.env Demo.upload_request Demo.world0).2 in
  response_key (upload_file Demo.env Demo.upload_request Demo.world0).1
  = Some "3f2b8c1e-9a47-4d05-b6e1-000000000000_..trips2016.csv"
  /\ response_key (upload_file Demo.env Demo.upload_request w1).1
     = Some "3f2b8c1e-9a47-4d05-b6e1-000000000002_..trips2016.csv"
  /\ "3f2b8c1e-9a47-4d05-b6e1-000000000000_..trips2016.csv"
     = uuid_gen Demo.env (rng Demo.world0) +:+ "_"
       +:+ secure_filename Demo.env (filename Demo.csv)
  /\ "3f2b8c1e-9a47-4d05-b6e1-000000000002_..trips2016.csv"
     = uuid_gen Demo.env (rng w1) +:+ "_"
       +:+ secure_filename Demo.env (filename Demo.csv)
  /\ (rng Demo.world0 < rng w1)%nat
  /\ uuid_gen Demo.env (rng Demo.world0) <> uuid_gen Demo.env (rng w1)
  /\ "3f2b8c1e-9a47-4d05-b6e1-000000000000_..trips2016.csv"
     <> "3f2b8c1e-9a47-4d05-b6e1-000000000002_..trips2016.csv".
Proof.
  intros w1.
  assert (H1 : response_key
                 (upload_file Demo.env Demo.upload_request Demo.world0).1
               = Some "3f2b8c1e-9a47-4d05-b6e1-000000000000_..trips2016.csv")
    by reflexivity.
  assert (H2 : response_key (upload_file Demo.env Demo.upload_request w1).1
               = Some "3f2b8c1e-9a47-4d05-b6e1-000000000002_..trips2016.csv")
    by reflexivity.
  split; [exact H1|]. split; [exact H2|].
  apply (upload_storage_key Demo.env Demo.upload_request Demo.upload_request
           Demo.world0 w1 Demo.csv Demo.csv).
  - reflexivity.
  - reflexivity.
  - exact H1.
  - exact H2.
  - vm_compute. lia.
  - intros i. reflexivity.
  - apply (bool_decide_unpack _). vm_compute. exact I.
Defined.

(** ** The trigger handler *)

(** The key is read before the [try] is entered: what [data['s3_key']]
    raises leaves the view function. *)
Lemma trigger_job_raises (E : Env) (request : Request) (w : World) (e : exn) :
  getitem (req_json request) "s3_key" = inl e ->
  trigger_job E request w = (Unhandled e, w).
Proof.
  intros H. unfold trigger_job, run_view, trigger_job_view, bind.
  rewrite H. reflexivity.
Qed.

Lemma trigger_job_run (E : Env) (request : Request) (w : World) (key : pyobj) :
  getitem (req_json request) "s3_key" = inr key ->
  let a := job_message E key (uuid_gen E (rng w)) in
  trigger_job E request w
  = match sqs_fault E (tick w) a with
    | Some e =>
        (Response (error_body e) 500, log (SqsSend a (inl e)) (tick w))
    | None =>
        let mid := sqs_message_id E (tick w) a in
        (Response (PDict [("message", PStr "ETL job queued successfully!");
                          ("s3_key", key);
                          ("sqs_message_id", PStr mid)]) 200,
         log (SqsSend a (inr mid)) (tick w))
    end.
Proof.
  intros H a. unfold trigger_job, run_view, trigger_job_view, bind.
  rewrite H. cbn [lift ret].
  unfold try_except, bind, uuid4, send_message. cbn [fst snd].
  change {| QueueUrl := SQS_QUEUE_URL E;
            MessageBody := _;
            MessageGroupId := "etl-job";
            MessageDeduplicationId := uuid_gen E (rng w) |} with a.
  destruct (sqs_fault E (tick w) a); reflexivity.
Qed.

(** C3.  A body without [s3_key] is not answered 400: the [KeyError] of
    the lookup escapes [trigger_job], and nothing is sent. *)
Theorem trigger_job_missing_key_unhandled :
  trigger_job Demo.env Demo.bare_request Demo.world0
  = (Unhandled (KeyError "s3_key"), Demo.world0).
Proof. reflexivity. Qed.

(** The same for every body that is a dictionary without the key. *)
Lemma trigger_job_missing_key (E : Env) (request : Request) (w : World)
    (d : list (string * pyobj)) :
  req_json request = PDict d ->
  dict_get d "s3_key" = None ->
  trigger_job E request w = (Unhandled (KeyError "s3_key"), w).
Proof.
  intros Hd Hk. apply trigger_job_raises. rewrite Hd. cbn. rewrite Hk.
  reflexivity.
Qed.

(** C8.  For the key of an upload, the message [trigger_job] sends is the
    job message of the design, as is the one the upload sent: same queue,
    same body, same group; each carries the token its own invocation
    drew.  When [uuid4] has not repeated itself the two tokens differ, and
    so do the two message ids if the queue gives different ids to
    different tokens. *)
Theorem trigger_job_same_message (E : Env) (req_u req_t : Request)
    (w w2 : World) (evs : list Event) (key : string) (a1 : SendArgs)
    (r1 : exn + string) :
  trace (upload_file E req_u w).2 = trace w ++ evs ->
  S3Upload (S3_BUCKET E) key None ∈ evs ->
  SqsSend a1 r1 ∈ evs ->
  getitem (req_json req_t) "s3_key" = inr (PStr key) ->
  (rng (upload_file E req_u w).2 <= rng w2)%nat ->
  NoDup (draws E (S (rng w2))) ->
  (forall wa a wb b,
      MessageDeduplicationId a <> MessageDeduplicationId b ->
      sqs_message_id E wa a <> sqs_message_id E wb b) ->
  exists a2 r2,
    trace (trigger_job E req_t w2).2 = trace w2 ++ [SqsSend a2 r2]
    /\ a1 = job_message E (PStr key) (uuid_gen E (S (rng w)))
    /\ a2 = job_message E (PStr key) (uuid_gen E (rng w2))
    /\ QueueUrl a1 = QueueUrl a2
    /\ MessageBody a1 = MessageBody a2
    /\ MessageGroupId a1 = MessageGroupId a2
    /\ MessageDeduplicationId a1 <> MessageDeduplicationId a2
    /\ (rng w2 < rng (trigger_job E req_t w2).2)%nat
    /\ forall m1 m2,
         response_message_id (upload_file E req_u w).1 = Some m1 ->
         response_message_id (trigger_job E req_t w2).1 = Some m2 ->
         m1 <> m2.
Proof.
  intros Htr Hup Hsend Hkey Hlater Hnd Hids.
  destruct (upload_run_events _ _ _ _ _ (upload_file_run E req_u w))
    as (evs' & Htr' & Hcases).
  rewrite Htr in Htr'. apply app_inv_head in Htr'. subst evs'.
  destruct Hcases as [[-> _]|[(f & e' & Hf & -> & Hout & Hobj)
                            |(f & r & Hf & Hn & -> & Hobj & Hrng & Hout)]].
  { inversion Hup. }
  { apply list_elem_of_singleton in Hup. discriminate. }
  apply elem_of_cons in Hup as [Hup|Hup];
    [|apply list_elem_of_singleton in Hup; discriminate].
  apply elem_of_cons in Hsend as [Hsend|Hsend]; [discriminate|].
  apply list_elem_of_singleton in Hsend.
  injection Hup as Hk. injection Hsend as -> ->.
  assert (Hne : uuid_gen E (S (rng w)) <> uuid_gen E (rng w2)).
  { apply (draws_distinct E (S (rng w2))); [exact Hnd|lia|lia]. }
  pose proof (trigger_job_run E req_t w2 _ Hkey) as Hrun. cbn zeta in Hrun.
  set (a2 := job_message E (PStr key) (uuid_gen E (rng w2))) in *.
  assert (Ha1 : upload_send E w f
                = job_message E (PStr key) (uuid_gen E (S (rng w)))).
  { unfold upload_send. rewrite <- Hk. reflexivity. }
  destruct (sqs_fault E (tick w2) a2) as [e2|] eqn:Hq2.
  - exists a2, (inl e2). rewrite Hrun, Ha1. cbn.
    repeat split; auto with lia.
  - exists a2, (inr (sqs_message_id E (tick w2) a2)). rewrite Hrun, Ha1. cbn.
    repeat split; auto with lia.
    intros m1 m2 Hm1 Hm2. injection Hm2 as <-.
    destruct r as [e|mid].
    + rewrite Hout in Hm1. discriminate.
    + destruct Hout as [Hmid Hout]. rewrite Hout in Hm1.
      injection Hm1 as <-. rewrite Hmid. apply Hids.
      rewrite Ha1. exact Hne.
Qed.

(** An upload, then a trigger on the key it answered with. *)
Lemma trigger_job_same_message_witness :
  let key := storage_key Demo.env Demo.world0 Demo.csv in
  let a1 := upload_send Demo.env Demo.world0 Demo.csv in
  let w2 := (upload_file Demo.env Demo.upload_request Demo.world0).2 in
  exists a2 r2,
    trace (trigger_job Demo.env (Demo.trigger_request key) w2).2
    = trace w2 ++ [SqsSend a2 r2]
    /\ a1 = job_message Demo.env (PStr key)
              (uuid_gen Demo.env (S (rng Demo.world0)))
    /\ a2 = job_message Demo.env (PStr key) (uuid_gen Demo.env (rng w2))
    /\ QueueUrl a1 = QueueUrl a2
    /\ MessageBody a1 = MessageBody a2
    /\ MessageGroupId a1 = MessageGroupId a2
    /\ MessageDeduplicationId a1 <> MessageDeduplicationId a2
    /\ (rng w2 < rng (trigger_job Demo.env (Demo.trigger_request key) w2).2)%nat
    /\ forall m1 m2,
         response_message_id
           (upload_file Demo.env Demo.upload_request Demo.world0).1 = Some m1 ->
         response_message_id
           (trigger_job Demo.env (Demo.trigger_request key) w2).1 = Some m2 ->
         m1 <> m2.
Proof.
  intros key a1 w2.
  apply (trigger_job_same_message Demo.env Demo.upload_request
           (Demo.trigger_request key) Demo.world0 w2
           [S3Upload "taxi-etl" key None;
            SqsSend a1 (inr (Demo.message_id Demo.world0 a1))]
           key a1 (inr (Demo.message_id Demo.world0 a1))).
  - reflexivity.
  - constructor.
  - constructor; constructor.
  - reflexivity.
  - vm_compute. lia.
  - apply (bool_decide_unpack _). vm_compute. exact I.
  - intros wa a wb b Hne Heq. apply Hne. cbn in Heq.
    injection Heq as Heq. exact Heq.
Defined.

(** ** The query service *)

(** C6.  On an empty [trips] table the statistics are answered 200 with a
    null average, zero days and no per-day row; nothing is raised and the
    world is untouched. *)
Theorem get_trip_stats_empty (w : World) :
  trips w = [] ->
  get_trip_stats w
  = (Response (PDict [("average_trip_duration", PNone);
                      ("total_days", PInt 0);
                      ("trips_per_day", PList [])]) 200,
     w).
Proof.
  intros Hempty.
  unfold get_trip_stats, run_view, get_trip_stats_view, try_except, bind,
    select.
  rewrite Hempty. reflexivity.
Qed.

Lemma get_trip_stats_empty_witness :
  trips Demo.world0 = []
  /\ get_trip_stats Demo.world0
     = (Response (PDict [("average_trip_duration", PNone);
                         ("total_days", PInt 0);
                         ("trips_per_day", PList [])]) 200,
        Demo.world0).
Proof.
  split.
  - reflexivity.
  - apply (get_trip_stats_empty Demo.world0). reflexivity.
Defined.

(** C10.  [allTrips] with [vendor_id: 0] is [allTrips] without
    [vendor_id]: the guard tests the truth value of the argument, and no
    vendor criterion reaches the query. *)
Theorem resolve_all_trips_vendor_zero (E : Env) (limit_ offset_ : option Z)
    (start_date end_date : option datetime) (w : World) :
  resolve_all_trips E limit_ offset_ (Some 0) start_date end_date w
  = resolve_all_trips E limit_ offset_ None start_date end_date w.
Proof. reflexivity. Qed.

(** Rows that come out of [where_] pass every criterion of the query. *)
Lemma where_app (E : Env) (cs1 cs2 : list criterion) (rows : list Trip.t) :
  where_ E (cs1 ++ cs2) rows
  = match where_ E cs1 rows with
    | inl e => inl e
    | inr rs => where_ E cs2 rs
    end.
Proof.
  revert rows. induction cs1 as [|c cs1 IH]; intros rows; cbn.
  - reflexivity.
  - destruct (compile_criterion E c); [reflexivity|apply IH].
Qed.

Lemma where_keeps (E : Env) (cs : list criterion) (p : Trip.t -> bool)
    (rows rs : list Trip.t) :
  where_ E cs rows = inr rs ->
  Forall (fun t => p t = true) rows ->
  Forall (fun t => p t = true) rs.
Proof.
  revert rows. induction cs as [|c cs IH]; intros rows Hw Hall; cbn in Hw.
  - injection Hw as <-. exact Hall.
  - destruct (compile_criterion E c) as [e|q]; [discriminate|].
    apply (IH _ Hw). apply List.Forall_forall. intros t Ht.
    apply filter_In in Ht as [Ht _].
    rewrite List.Forall_forall in Hall. apply Hall. exact Ht.
Qed.

Lemma where_sound (E : Env) (cs : list criterion) (c : criterion)
    (p : Trip.t -> bool) (rows rs : list Trip.t) :
  where_ E cs rows = inr rs ->
  In c cs ->
  compile_criterion E c = inr p ->
  Forall (fun t => p t = true) rs.
Proof.
  revert rows. induction cs as [|c' cs IH]; intros rows Hw Hin Hc;
    [destruct Hin|].
  cbn in Hw. destruct (compile_criterion E c') as [e|q] eqn:Hq;
    [discriminate|].
  destruct Hin as [->|Hin].
  - assert (q = p) as -> by congruence.
    apply (where_keeps E cs p _ _ Hw).
    apply List.Forall_forall. intros t Ht. apply filter_In in Ht as [_ Ht].
    exact Ht.
  - apply (IH _ Hw Hin Hc).
Qed.

(** A query without [limit] and [offset] answers with the rows that pass
    its criteria. *)
Lemma all_unpaged (E : Env) (q : Query) (w : World) (rs : list Trip.t) :
  q_limit q = None -> q_offset q = None ->
  all E q w = (inr rs, w) ->
  where_ E (criteria q) (trips w) = inr rs.
Proof.
  intros Hl Ho. unfold all. rewrite Hl, Ho.
  destruct (where_ E (criteria q) (trips w)) as [e|rows]; cbn.
  - intros H. injection H as H. discriminate.
  - intros H. injection H as ->. reflexivity.
Qed.

Lemma multidict_get_without (request : Request) (k : string) :
  multidict_get (args (without_time_range request)) k
  = if String.eqb k "start_date" || String.eqb k "end_date" then None
    else multidict_get (args request) k.
Proof.
  unfold without_time_range. cbn [args].
  induction (args request) as [|[k' v] l IH]; cbn.
  - destruct (_ || _); reflexivity.
  - destruct (String.eqb k' "start_date") eqn:H1; cbn.
    { apply String.eqb_eq in H1. subst k'. rewrite IH.
      rewrite (String.eqb_sym "start_date" k).
      destruct (String.eqb k "start_date"); reflexivity. }
    destruct (String.eqb k' "end_date") eqn:H2; cbn.
    { apply String.eqb_eq in H2. subst k'. rewrite IH.
      rewrite (String.eqb_sym "end_date" k).
      destruct (String.eqb k "start_date"), (String.eqb k "end_date");
        reflexivity. }
    destruct (String.eqb k' k) eqn:H3.
    + apply String.eqb_eq in H3. subst k'. rewrite H1, H2. reflexivity.
    + exact IH.
Qed.

(** A 200 from [get_trips] carries the rows that pass the criteria of a
    query holding one coordinate criterion per coordinate parameter that
    is given. *)
Lemma get_trips_ok (E : Env) (request : Request) (w : World) (body : pyobj) :
  (get_trips E request w).1 = Response body 200 ->
  exists cs rows,
    body = PList (map Trip.to_dict rows)
    /\ where_ E cs (trips w) = inr rows
    /\ (forall s, multidict_get (args request) "pickup_long" = Some s ->
                  s <> "" ->
                  exists v, float_of_str E s = Some v
                            /\ In (PickupLongitudeEq v) cs)
    /\ (forall s, multidict_get (args request) "pickup_lat" = Some s ->
                  s <> "" ->
                  exists v, float_of_str E s = Some v
                            /\ In (PickupLatitudeEq v) cs).
Proof.
  unfold get_trips, run_view, get_trips_view, try_except.
  set (q0 := match multidict_get (args request) "start_date" with
             | Some _ => _ | None => _ end).
  assert (Hq0 : q_limit q0 = None /\ q_offset q0 = None).
  { subst q0. repeat case_match; auto. }
  destruct Hq0 as [Hl Ho]. clearbody q0.
  unfold bind, py_float, all, truthy_str.
  destruct (multidict_get (args request) "pickup_long") as [sl|] eqn:Hlong;
    destruct (multidict_get (args request) "pickup_lat") as [sa|] eqn:Hlat.
  all: repeat match goal with
         | |- context [String.eqb ?s ""] =>
             let H := fresh "Hs" in destruct (String.eqb s "") eqn:H
         | |- context [float_of_str ?E' ?s] =>
             let H := fresh "Hf" in destruct (float_of_str E' s) eqn:H
         end.
  all: cbn [negb ret raise fst snd filter_by criteria q_limit q_offset].
  all: rewrite ?Hl, ?Ho.
  all: try (cbn; intros; discriminate).
  all: match goal with
       | |- context [where_ ?E' ?cs (trips ?w')] =>
           destruct (where_ E' cs (trips w')) as [e|rows] eqn:Hw
       end.
  all: cbn; intros H; try discriminate.
  all: injection H as <-.
  all: eexists _, rows; split; [reflexivity|]; split; [exact Hw|].
  all: split; intros s Harg Hne; try discriminate;
       injection Harg as ->; apply String.eqb_neq in Hne; try congruence.
  all: eexists; split; [eassumption|].
  all: rewrite ?in_app_iff; cbn; auto.
Qed.

(** C7.  In [get_trips], a longitude (resp. latitude) parameter that is
    given and reads as a number keeps only rows whose pickup longitude
    (resp. latitude) the database finds equal to that number, whatever the
    other parameters are; and a request with only one of [start_date] and
    [end_date] is answered as the same request without either. *)
Theorem get_trips_filters (E : Env) (request : Request) (w : World) :
  (forall s v body,
      multidict_get (args request) "pickup_long" = Some s ->
      s <> "" ->
      float_of_str E s = Some v ->
      (get_trips E request w).1 = Response body 200 ->
      exists rows,
        body = PList (map Trip.to_dict rows)
        /\ Forall (fun t => exists x, Trip.pickup_longitude t = Some x
                                      /\ float8_eq E x v = true) rows)
  /\ (forall s v body,
      multidict_get (args request) "pickup_lat" = Some s ->
      s <> "" ->
      float_of_str E s = Some v ->
      (get_trips E request w).1 = Response body 200 ->
      exists rows,
        body = PList (map Trip.to_dict rows)
        /\ Forall (fun t => exists x, Trip.pickup_latitude t = Some x
                                      /\ float8_eq E x v = true) rows)
  /\ (multidict_get (args request) "start_date" = None
      \/ multidict_get (args request) "end_date" = None ->
      get_trips E request w = get_trips E (without_time_range request) w).
Proof.
  split; [|split].
  - intros s v body Hs Hne Hv Hok.
    destruct (get_trips_ok E request w body Hok)
      as (cs & rows & -> & Hw & Hlong & _).
    destruct (Hlong s Hs Hne) as (v' & Hv' & Hin).
    assert (v' = v) as -> by congruence.
    exists rows. split; [reflexivity|].
    eapply Forall_impl.
    + eapply (where_sound E cs); [exact Hw|exact Hin|reflexivity].
    + cbn. intros t Ht. destruct (Trip.pickup_longitude t) as [x|];
        [eauto|discriminate].
  - intros s v body Hs Hne Hv Hok.
    destruct (get_trips_ok E request w body Hok)
      as (cs & rows & -> & Hw & _ & Hlat).
    destruct (Hlat s Hs Hne) as (v' & Hv' & Hin).
    assert (v' = v) as -> by congruence.
    exists rows. split; [reflexivity|].
    eapply Forall_impl.
    + eapply (where_sound E cs); [exact Hw|exact Hin|reflexivity].
    + cbn. intros t Ht. destruct (Trip.pickup_latitude t) as [x|];
        [eauto|discriminate].
  - intros Hone.
    unfold get_trips, get_trips_view.
    rewrite !multidict_get_without. cbn [String.eqb Ascii.eqb Bool.eqb orb].
    destruct Hone as [Hnone|Hnone]; rewrite Hnone.
    + reflexivity.
    + destruct (multidict_get (args request) "start_date"); reflexivity.
Qed.

(** ** The [DateTime] scalar

    First the digits, then the three parts of the text (date, time of
    day, offset), then [fromisoformat] after [isoformat]. *)

#[local] Arguments String.append !s1 s2 : simpl nomatch.

Lemma digit_val_digit (n : Z) : 0 <= n < 10 -> digit_val (digit n) = Some n.
Proof.
  intros [Hlo Hhi]. destruct n as [|p|p]; [reflexivity| |lia].
  do 4 (destruct p as [p|p|]; try lia; try reflexivity).
Qed.

Lemma digit_is_digit (n : Z) :
  In (digit n) ["0"; "1"; "2"; "3"; "4"; "5"; "6"; "7"; "8"; "9"]%char.
Proof.
  destruct n as [|p|p]; [cbn; tauto| |cbn; tauto].
  unfold digit.
  do 4 (try destruct p as [p|p|]; cbn; try tauto).
Qed.

Lemma digit_not_mark (n : Z) (c : ascii) :
  In c ["-"; "+"; ":"; "."]%char -> Ascii.eqb (digit n) c = false.
Proof.
  intros Hc. pose proof (digit_is_digit n) as Hd.
  cbn in Hc, Hd.
  repeat (destruct Hc as [<-|Hc]);
    repeat (destruct Hd as [<-|Hd]); try reflexivity; contradiction.
Qed.

Lemma fmt_d_2 (n : Z) :
  0 <= n < 100 ->
  fmt_d 2 n = String (digit (n / 10 mod 10)) (String (digit (n mod 10)) "").
Proof.
  intros H. unfold fmt_d.
  replace (n / 10 / 10) with 0 by (rewrite Z.div_div by lia; symmetry; apply Z.div_small; lia).
  reflexivity.
Qed.

Lemma fmt_d_4 (n : Z) :
  0 <= n < 10000 ->
  fmt_d 4 n
  = String (digit (n / 10 / 10 / 10 mod 10))
      (String (digit (n / 10 / 10 mod 10))
         (String (digit (n / 10 mod 10)) (String (digit (n mod 10)) ""))).
Proof.
  intros H. unfold fmt_d.
  replace (n / 10 / 10 / 10 / 10) with 0.
  - reflexivity.
  - rewrite !Z.div_div by lia. symmetry; apply Z.div_small; lia.
Qed.

Lemma fmt_d_6 (n : Z) :
  0 <= n < 1000000 ->
  fmt_d 6 n
  = String (digit (n / 10 / 10 / 10 / 10 / 10 mod 10))
      (String (digit (n / 10 / 10 / 10 / 10 mod 10))
         (String (digit (n / 10 / 10 / 10 mod 10))
            (String (digit (n / 10 / 10 mod 10))
               (String (digit (n / 10 mod 10))
                  (String (digit (n mod 10)) ""))))).
Proof.
  intros H. unfold fmt_d.
  replace (n / 10 / 10 / 10 / 10 / 10 / 10) with 0.
  - reflexivity.
  - rewrite !Z.div_div by lia. symmetry; apply Z.div_small; lia.
Qed.

Lemma parse_digits_digit (n acc : Z) (s : string) :
  parse_digits (String (digit (n mod 10)) s) acc
  = parse_digits s (10 * acc + n mod 10).
Proof.
  cbn [parse_digits]. rewrite digit_val_digit; [reflexivity|].
  apply Z.mod_pos_bound. lia.
Qed.

Lemma parse_int_fmt_d_2 (n : Z) :
  0 <= n < 100 -> parse_int (fmt_d 2 n) = Some n.
Proof.
  intros H. rewrite fmt_d_2 by exact H. unfold parse_int.
  rewrite !parse_digits_digit. cbn [parse_digits]. f_equal.
  Z.div_mod_to_equations. lia.
Qed.

Lemma parse_int_fmt_d_4 (n : Z) :
  0 <= n < 10000 -> parse_int (fmt_d 4 n) = Some n.
Proof.
  intros H. rewrite fmt_d_4 by exact H. unfold parse_int.
  rewrite !parse_digits_digit. cbn [parse_digits]. f_equal.
  Z.div_mod_to_equations. lia.
Qed.

Lemma parse_int_fmt_d_6 (n : Z) :
  0 <= n < 1000000 -> parse_int (fmt_d 6 n) = Some n.
Proof.
  intros H. rewrite fmt_d_6 by exact H. unfold parse_int.
  rewrite !parse_digits_digit. cbn [parse_digits]. f_equal.
  Z.div_mod_to_equations. lia.
Qed.

Lemma parse_int_d2 (n : Z) :
  0 <= n < 100 ->
  parse_int (String (digit (n / 10 mod 10)) (String (digit (n mod 10)) ""))
  = Some n.
Proof. intros H. rewrite <- fmt_d_2 by exact H. apply parse_int_fmt_d_2, H. Qed.

(** HH:MM:SS[.ffffff] *)
Lemma parse_hms_full (h m s u : Z) :
  0 <= h < 100 -> 0 <= m < 100 -> 0 <= s < 100 -> 0 <= u < 1000000 ->
  parse_hh_mm_ss_ff
    (fmt_d 2 h +:+ ":" +:+ fmt_d 2 m +:+ ":" +:+ fmt_d 2 s
     +:+ (if u =? 0 then "" else "." +:+ fmt_d 6 u))
  = Some (h, m, s, u).
Proof.
  intros Hh Hm Hs Hu.
  rewrite !fmt_d_2 by assumption.
  unfold parse_hh_mm_ss_ff. cbv [String.append]. cbn [parse_comps].
  rewrite !parse_int_d2 by assumption. cbn [mbind option_bind Ascii.eqb Bool.eqb nth].
  destruct (u =? 0) eqn:Hu0.
  - apply Z.eqb_eq in Hu0. subst u. reflexivity.
  - rewrite fmt_d_6 by assumption. cbv [String.append]; cbn [negb Ascii.eqb Bool.eqb String.length].
    rewrite <- fmt_d_6 by assumption. rewrite parse_int_fmt_d_6 by assumption.
    reflexivity.
Qed.

(** HH:MM *)
Lemma parse_hms_short (h m : Z) :
  0 <= h < 100 -> 0 <= m < 100 ->
  parse_hh_mm_ss_ff (fmt_d 2 h +:+ ":" +:+ fmt_d 2 m) = Some (h, m, 0, 0).
Proof.
  intros Hh Hm.
  rewrite !fmt_d_2 by assumption.
  unfold parse_hh_mm_ss_ff. cbv [String.append]; cbn [parse_comps].
  rewrite !parse_int_d2 by assumption. reflexivity.
Qed.

Lemma string_length_app (s t : string) :
  String.length (s +:+ t) = (String.length s + String.length t)%nat.
Proof. induction s as [|c s IH]; cbn; [reflexivity|]. f_equal. exact IH. Qed.

Lemma substring_full (t : string) : substring 0 (String.length t) t = t.
Proof. induction t as [|c t IH]; cbn; [reflexivity|]. f_equal. exact IH. Qed.

Lemma substring_0_app (s t : string) :
  substring 0 (String.length s) (s +:+ t) = s.
Proof.
  induction s as [|c s IH]; cbn.
  - destruct t; reflexivity.
  - f_equal. exact IH.
Qed.

Lemma substring_drop_app (s t : string) (n m : nat) :
  substring (String.length s + n) m (s +:+ t) = substring n m t.
Proof. induction s as [|c s IH]; cbn; [reflexivity|exact IH]. Qed.

Lemma get_app_r (s t : string) (n : nat) :
  String.get (String.length s + n) (s +:+ t) = String.get n t.
Proof. induction s as [|c s IH]; cbn; [reflexivity|exact IH]. Qed.

Lemma find_char_app (c : ascii) (s t : string) :
  find_char c (s +:+ t)
  = match find_char c s with
    | Some i => Some i
    | None => (fun j => (String.length s + j)%nat) <$> find_char c t
    end.
Proof.
  induction s as [|c' s IH]; cbn.
  - destruct (find_char c t); reflexivity.
  - destruct (Ascii.eqb c' c); [reflexivity|].
    rewrite IH. destruct (find_char c s); [reflexivity|].
    destruct (find_char c t); reflexivity.
Qed.

(** The time of day, and the body of an offset, as [isoformat] writes
    them: no sign inside, and a few possible lengths. *)
Lemma find_char_hms_full (c : ascii) (h m s u : Z) :
  In c ["-"; "+"]%char ->
  0 <= h < 100 -> 0 <= m < 100 -> 0 <= s < 100 -> 0 <= u < 1000000 ->
  find_char c
    (fmt_d 2 h +:+ ":" +:+ fmt_d 2 m +:+ ":" +:+ fmt_d 2 s
     +:+ (if u =? 0 then "" else "." +:+ fmt_d 6 u)) = None.
Proof.
  intros Hc Hh Hm Hs Hu.
  rewrite !fmt_d_2 by assumption.
  destruct (u =? 0); rewrite ?fmt_d_6 by assumption;
    cbv [String.append]; cbn [find_char];
    rewrite !digit_not_mark by (cbn in Hc |- *; tauto);
    cbn in Hc; destruct Hc as [<-|[<-|[]]]; reflexivity.
Qed.

Lemma find_char_hms_short (c : ascii) (h m : Z) :
  In c ["-"; "+"]%char ->
  0 <= h < 100 -> 0 <= m < 100 ->
  find_char c (fmt_d 2 h +:+ ":" +:+ fmt_d 2 m) = None.
Proof.
  intros Hc Hh Hm.
  rewrite !fmt_d_2 by assumption.
  cbv [String.append]; cbn [find_char];
    rewrite !digit_not_mark by (cbn in Hc |- *; tauto);
    cbn in Hc; destruct Hc as [<-|[<-|[]]]; reflexivity.
Qed.

Lemma length_hms_full (h m s u : Z) :
  0 <= h < 100 -> 0 <= m < 100 -> 0 <= s < 100 -> 0 <= u < 1000000 ->
  String.length
    (fmt_d 2 h +:+ ":" +:+ fmt_d 2 m +:+ ":" +:+ fmt_d 2 s
     +:+ (if u =? 0 then "" else "." +:+ fmt_d 6 u))
  = if u =? 0 then 8%nat else 15%nat.
Proof.
  intros Hh Hm Hs Hu.
  rewrite !fmt_d_2 by assumption.
  destruct (u =? 0); rewrite ?fmt_d_6 by assumption; reflexivity.
Qed.

Lemma length_hms_short (h m : Z) :
  0 <= h < 100 -> 0 <= m < 100 ->
  String.length (fmt_d 2 h +:+ ":" +:+ fmt_d 2 m) = 5%nat.
Proof. intros Hh Hm. rewrite !fmt_d_2 by assumption. reflexivity. Qed.

Lemma parse_isoformat_time_plain (tm : string) (r : Z * Z * Z * Z) :
  (2 <= String.length tm)%nat ->
  find_char "-" tm = None ->
  find_char "+" tm = None ->
  parse_hh_mm_ss_ff tm = Some r ->
  parse_isoformat_time tm = Some (r, None).
Proof.
  intros Hlen Hm Hp Hr. unfold parse_isoformat_time.
  destruct (String.length tm <? 2)%nat eqn:Hl;
    [apply Nat.ltb_lt in Hl; lia|].
  rewrite Hm, Hp, Hr. destruct r as [[[h m] s] u]. reflexivity.
Qed.

Lemma parse_isoformat_time_split (tm body : string) (sg : ascii)
    (h m s u th tm' ts tu : Z) :
  (2 <= String.length tm)%nat ->
  find_char "-" tm = None ->
  find_char "+" tm = None ->
  find_char "-" body = None ->
  sg = "-"%char \/ sg = "+"%char ->
  parse_hh_mm_ss_ff tm = Some (h, m, s, u) ->
  In (String.length body) [5; 8; 15]%nat ->
  parse_hh_mm_ss_ff body = Some (th, tm', ts, tu) ->
  parse_isoformat_time (tm +:+ String sg body)
  = Some (h, m, s, u,
          Some ((if Ascii.eqb sg "-" then -1 else 1)
                * (th * 3600000000 + tm' * 60000000 + ts * 1000000 + tu))).
Proof.
  intros Hlen Hm Hp Hb Hsg Htm Hbl Hbody. unfold parse_isoformat_time.
  rewrite string_length_app. cbn [String.length].
  destruct (String.length tm + S (String.length body) <? 2)%nat eqn:Hl;
    [apply Nat.ltb_lt in Hl; lia|].
  assert (E1 : substring 0 (String.length tm) (tm +:+ String sg body) = tm)
    by apply substring_0_app.
  assert (E2 : substring (S (String.length tm))
                 (String.length tm + S (String.length body)
                  - S (String.length tm))
                 (tm +:+ String sg body) = body).
  { replace (S (String.length tm)) with (String.length tm + 1)%nat by lia.
    rewrite substring_drop_app. cbn [substring].
    replace (_ - _)%nat with (String.length body) by lia.
    apply substring_full. }
  assert (E3 : String.get (String.length tm) (tm +:+ String sg body)
               = Some sg).
  { replace (String.length tm) with (String.length tm + 0)%nat at 1 by lia.
    rewrite get_app_r. reflexivity. }
  assert (E4 : negb ((String.length body =? 5)%nat
                     || (String.length body =? 8)%nat
                     || (String.length body =? 15)%nat) = false).
  { cbn in Hbl. destruct Hbl as [<-|[<-|[<-|[]]]]; reflexivity. }
  rewrite !find_char_app, Hm, Hp. cbn [find_char].
  destruct Hsg as [->| ->]; cbn [Ascii.eqb Bool.eqb]; rewrite ?Hb;
    cbn [fmap option_fmap option_map]; rewrite Nat.add_0_r;
    rewrite E1, E2, E3, Htm; cbn [mbind option_bind]; rewrite E4, Hbody;
    reflexivity.
Qed.

Lemma string_app_nil_r (s : string) : s +:+ "" = s.
Proof. induction s as [|c s IH]; cbn; [reflexivity|]. f_equal. exact IH. Qed.

Lemma string_app_assoc (s t r : string) : (s +:+ t) +:+ r = s +:+ (t +:+ r).
Proof. induction s as [|c s IH]; cbn; [reflexivity|]. f_equal. exact IH. Qed.

Lemma parse_int_d4 (n : Z) :
  0 <= n < 10000 ->
  parse_int
    (String (digit (n / 10 / 10 / 10 mod 10))
       (String (digit (n / 10 / 10 mod 10))
          (String (digit (n / 10 mod 10)) (String (digit (n mod 10)) ""))))
  = Some n.
Proof. intros H. rewrite <- fmt_d_4 by exact H. apply parse_int_fmt_d_4, H. Qed.

Lemma parse_isoformat_date_fmt (y m d : Z) :
  0 <= y < 10000 -> 0 <= m < 100 -> 0 <= d < 100 ->
  parse_isoformat_date (fmt_d 4 y +:+ "-" +:+ fmt_d 2 m +:+ "-" +:+ fmt_d 2 d)
  = Some (y, m, d).
Proof.
  intros Hy Hm Hd.
  rewrite fmt_d_4, !fmt_d_2 by assumption.
  unfold parse_isoformat_date.
  cbn [String.append substring String.get].
  rewrite parse_int_d4, !parse_int_d2 by assumption.
  reflexivity.
Qed.

Lemma length_date_fmt (y m d : Z) :
  0 <= y < 10000 -> 0 <= m < 100 -> 0 <= d < 100 ->
  String.length (fmt_d 4 y +:+ "-" +:+ fmt_d 2 m +:+ "-" +:+ fmt_d 2 d)
  = 10%nat.
Proof.
  intros Hy Hm Hd. rewrite fmt_d_4, !fmt_d_2 by assumption. reflexivity.
Qed.

Lemma fromisoformat_split (date : string) (sep : ascii) (t : string) :
  String.length date = 10%nat ->
  t <> "" ->
  fromisoformat (date +:+ String sep t)
  = '(y, m, d) ← parse_isoformat_date date;
    '(hh, mm, ss, us, tz) ← parse_isoformat_time t;
    let r := mk_datetime y m d hh mm ss us tz in
    if check_fields r then Some r else None.
Proof.
  intros Hlen Ht.
  assert (E1 : substring 0 10 (date +:+ String sep t) = date).
  { rewrite <- Hlen. apply substring_0_app. }
  assert (E2 : substring 11
                 (String.length (date +:+ String sep t) - 11)
                 (date +:+ String sep t) = t).
  { rewrite string_length_app, Hlen.
    change 11%nat with (10 + 1)%nat at 1. rewrite <- Hlen at 1.
    rewrite substring_drop_app.
    cbn [String.length Nat.add Nat.sub substring].
    rewrite Nat.sub_0_r. apply substring_full. }
  unfold fromisoformat. rewrite E1.
  destruct (parse_isoformat_date date) as [[[y m] d]|]; [|reflexivity].
  cbn [mbind option_bind]. rewrite E2.
  rewrite string_length_app, Hlen. reflexivity.
Qed.

(** What [format_offset] writes: a sign, then a body that reads back as
    the absolute value of the offset. *)
Lemma format_offset_shape (o : Z) :
  -86400000000 < o < 86400000000 ->
  exists sg body th tm ts tu,
    format_offset (Some o) = String sg body
    /\ (sg = "-"%char \/ sg = "+"%char)
    /\ find_char "-" body = None
    /\ In (String.length body) [5; 8; 15]%nat
    /\ parse_hh_mm_ss_ff body = Some (th, tm, ts, tu)
    /\ (if Ascii.eqb sg "-" then -1 else 1)
       * (th * 3600000000 + tm * 60000000 + ts * 1000000 + tu) = o.
Proof.
  intros Ho. unfold format_offset.
  set (a := Z.abs o).
  set (hh := a / 3600000000).
  set (rest := a mod 3600000000).
  set (mm := rest / 60000000).
  set (ss := rest mod 60000000).
  assert (Ha : 0 <= a < 86400000000) by (subst a; lia).
  assert (Hhh : 0 <= hh < 100) by (subst hh; Z.div_mod_to_equations; lia).
  assert (Hmm : 0 <= mm < 100)
    by (subst mm rest; Z.div_mod_to_equations; lia).
  assert (Hsec : 0 <= ss / 1000000 < 100)
    by (subst ss rest; Z.div_mod_to_equations; lia).
  assert (Hus : 0 <= ss mod 1000000 < 1000000)
    by (apply Z.mod_pos_bound; lia).
  assert (Hsum : hh * 3600000000 + mm * 60000000
                 + ss / 1000000 * 1000000 + ss mod 1000000 = a)
    by (subst hh mm ss rest; Z.div_mod_to_equations; lia).
  exists (if o <? 0 then "-"%char else "+"%char).
  destruct (ss =? 0) eqn:Hss.
  - apply Z.eqb_eq in Hss.
    exists (fmt_d 2 hh +:+ ":" +:+ fmt_d 2 mm), hh, mm, 0, 0.
    split; [rewrite string_app_nil_r; destruct (o <? 0); reflexivity|].
    split; [destruct (o <? 0); auto|].
    split; [apply find_char_hms_short; [cbn; auto|assumption..]|].
    split; [rewrite length_hms_short by assumption; cbn; auto|].
    split; [apply parse_hms_short; assumption|].
    rewrite Hss in Hsum.
    change (0 / 1000000) with 0 in Hsum. change (0 mod 1000000) with 0 in Hsum.
    destruct (o <? 0) eqn:Hneg;
      [apply Z.ltb_lt in Hneg; change (Ascii.eqb "-" "-") with true
      |apply Z.ltb_ge in Hneg; change (Ascii.eqb "+" "-") with false];
      cbv iota; clearbody hh mm; subst a; lia.
  - exists (fmt_d 2 hh +:+ ":" +:+ fmt_d 2 mm +:+ ":"
            +:+ fmt_d 2 (ss / 1000000)
            +:+ (if ss mod 1000000 =? 0 then ""
                 else "." +:+ fmt_d 6 (ss mod 1000000))),
      hh, mm, (ss / 1000000), (ss mod 1000000).
    split; [destruct (o <? 0); reflexivity|].
    split; [destruct (o <? 0); auto|].
    split; [apply find_char_hms_full; [cbn; auto|assumption..]|].
    split; [rewrite length_hms_full by assumption;
            destruct (ss mod 1000000 =? 0); cbn; auto|].
    split; [apply parse_hms_full; assumption|].
    destruct (o <? 0) eqn:Hneg;
      [apply Z.ltb_lt in Hneg; change (Ascii.eqb "-" "-") with true
      |apply Z.ltb_ge in Hneg; change (Ascii.eqb "+" "-") with false];
      cbv iota; clearbody hh mm ss; subst a; lia.
Qed.

Lemma check_fields_ranges (d : datetime) :
  check_fields d = true ->
  0 <= year d < 10000 /\ 0 <= month d < 100 /\ 0 <= day d < 100
  /\ 0 <= hour d < 100 /\ 0 <= minute d < 100 /\ 0 <= second d < 100
  /\ 0 <= microsecond d < 1000000
  /\ match utcoffset d with
     | Some o => -86400000000 < o < 86400000000
     | None => True
     end.
Proof.
  unfold check_fields. rewrite !andb_true_iff, !Z.leb_le.
  intros H.
  assert (Hdim : days_in_month (year d) (month d) <= 31).
  { unfold days_in_month.
    repeat match goal with
           | |- context [match ?x with _ => _ end] => destruct x
           end; lia. }
  destruct (utcoffset d) as [o|].
  - rewrite andb_true_iff, !Z.ltb_lt in H. lia.
  - lia.
Qed.

(** Reading back what [isoformat] wrote gives the value it was written
    from, whatever the separator. *)
Lemma fromisoformat_isoformat_sep (sep : ascii) (d : datetime) :
  check_fields d = true ->
  fromisoformat (isoformat_sep sep d) = Some d.
Proof.
  intros Hchk.
  destruct (check_fields_ranges d Hchk)
    as (Hy & Hmo & Hd & Hh & Hmi & Hs & Hus & Hoff).
  destruct d as [y mo dd h mi s us off]; cbn [year month day hour minute
    second microsecond utcoffset] in *.
  unfold isoformat_sep; cbn [year month day hour minute second microsecond
    utcoffset].
  set (date := fmt_d 4 y +:+ "-" +:+ fmt_d 2 mo +:+ "-" +:+ fmt_d 2 dd).
  set (tm := format_time h mi s us).
  assert (Hshape :
    fmt_d 4 y +:+ "-" +:+ fmt_d 2 mo +:+ "-" +:+ fmt_d 2 dd
    +:+ String sep tm +:+ format_offset off
    = date +:+ String sep (tm +:+ format_offset off)).
  { subst date. rewrite !string_app_assoc. reflexivity. }
  assert (Hlen : String.length tm = if us =? 0 then 8%nat else 15%nat)
    by (apply length_hms_full; assumption).
  assert (Hlen2 : (2 <= String.length tm)%nat)
    by (rewrite Hlen; destruct (us =? 0); lia).
  assert (Hne : tm +:+ format_offset off <> "").
  { intros Heq. apply (f_equal String.length) in Heq.
    rewrite string_length_app in Heq. change (String.length "") with 0%nat in Heq.
    lia. }
  assert (Hminus : find_char "-" tm = None)
    by (apply find_char_hms_full; [cbn; auto|assumption..]).
  assert (Hplus : find_char "+" tm = None)
    by (apply find_char_hms_full; [cbn; auto|assumption..]).
  assert (Hparse : parse_hh_mm_ss_ff tm = Some (h, mi, s, us))
    by (apply parse_hms_full; assumption).
  rewrite Hshape, fromisoformat_split by
    (first [apply length_date_fmt; assumption | exact Hne]).
  subst date. rewrite parse_isoformat_date_fmt by assumption.
  cbn [mbind option_bind].
  destruct off as [o|].
  - destruct (format_offset_shape o Hoff)
      as (sg & body & th & tm' & ts & tu & Hfo & Hsg & Hfb & Hbl & Hpb & Hsum).
    rewrite Hfo.
    rewrite (parse_isoformat_time_split tm body sg h mi s us th tm' ts tu)
      by assumption.
    rewrite Hsum. cbn [mbind option_bind]. rewrite Hchk. reflexivity.
  - cbn [format_offset]. rewrite string_app_nil_r.
    rewrite (parse_isoformat_time_plain tm (h, mi, s, us)) by assumption.
    cbn [mbind option_bind]. rewrite Hchk. reflexivity.
Qed.












(** ** The handlers at work on a small table *)

Example get_trips_by_longitude :
  (get_trips Demo.env (Demo.query_request [("pickup_long", "-73")])
     Demo.world_trips).1
  = Response (PList [Trip.to_dict Demo.trip_a]) 200.
Proof. reflexivity. Qed.

Example get_trips_start_date_alone :
  (get_trips Demo.env (Demo.query_request [("start_date", "2016-03-15")])
     Demo.world_trips).1
  = Response (PList [Trip.to_dict Demo.trip_a; Trip.to_dict Demo.trip_b]) 200.
Proof. reflexivity. Qed.

Example get_trips_time_range :
  (get_trips Demo.env
     (Demo.query_request [("start_date", "2016-03-15");
                          ("end_date", "2016-03-16")])
     Demo.world_trips).1
  = Response (PList [Trip.to_dict Demo.trip_b]) 200.
Proof. reflexivity. Qed.

Example get_trips_bad_longitude :
  (get_trips Demo.env (Demo.query_request [("pickup_long", "east")])
     Demo.world_trips).1
  = Response
      (PDict [("error", PStr "could not convert string to float: 'east'")])
      500.
Proof. reflexivity. Qed.

Example get_trip_stats_two_days :
  (get_trip_stats Demo.world_trips).1
  = Response
      (PDict [("average_trip_duration", PDecimal (Qmake 910 2));
              ("total_days", PInt 2);
              ("trips_per_day",
               PList [PDict [("date", PStr "2016-03-14 00:00:00");
                             ("total_trips", PInt 1)];
                      PDict [("date", PStr "2016-03-15 00:00:00");
                             ("total_trips", PInt 1)]])]) 200.
Proof. reflexivity. Qed.

(** No trip has vendor 0, yet [vendor_id: 0] lists the table; a vendor
    that is not 0 filters. *)
Example all_trips_vendor_zero_lists_all :
  (resolve_all_trips Demo.env (Some 10) (Some 0) (Some 0) None None
     Demo.world_trips).1
  = inr [Demo.trip_a; Demo.trip_b].
Proof. reflexivity. Qed.

Example all_trips_vendor_two :
  (resolve_all_trips Demo.env (Some 10) (Some 0) (Some 2) None None
     Demo.world_trips).1
  = inr [Demo.trip_b].
Proof. reflexivity. Qed.

(** * Further properties of the handlers *)

(** ** [upload_file] *)

(** X1.  [upload_file] always answers: no exception leaves it, and the
    status is 400 exactly when no client was called, 200 exactly when the
    queue accepted the message, 500 exactly when a call failed. *)
Theorem upload_file_always_answers (E : Env) (request : Request) (w : World) :
  exists body status evs,
    (upload_file E request w).1 = Response body status
    /\ trace (upload_file E request w).2 = trace w ++ evs
    /\ (status = 200 \/ status = 400 \/ status = 500)
    /\ (status = 400 <-> evs = [])
    /\ (status = 200 <-> exists a mid, SqsSend a (inr mid) ∈ evs)
    /\ (status = 500 <->
        (exists b k e, S3Upload b k (Some e) ∈ evs)
        \/ (exists a e, SqsSend a (inl e) ∈ evs)).
Proof.
  destruct (upload_run_events _ _ _ _ _ (upload_file_run E request w))
    as (evs & Htr & Hcases).
  assert (Hrun := upload_file_run E request w).
  destruct Hcases as [[-> Hw]|[(f & e & Hf & -> & Hout & Hobj)
                              |(f & r & Hf & Hn & -> & Hobj & _ & Hout)]].
  - assert (exists msg, (upload_file E request w).1
                        = Response (PDict [("error", PStr msg)]) 400)
      as [msg Hmsg].
    { destruct Hrun as [?|? ? ?|? ? ? ? Hs|? ? ? ? ? ?|? ? ? ? ?]; eauto;
        exfalso.
      - apply (f_equal trace) in Hw. cbn in Hw.
        apply (f_equal (@length Event)) in Hw.
        rewrite length_app in Hw. cbn in Hw. lia.
      - apply (f_equal trace) in Hw. cbn in Hw.
        apply (f_equal (@length Event)) in Hw.
        rewrite !length_app in Hw. cbn in Hw. lia.
      - apply (f_equal trace) in Hw. cbn in Hw.
        apply (f_equal (@length Event)) in Hw.
        rewrite !length_app in Hw. cbn in Hw. lia. }
    exists (PDict [("error", PStr msg)]), 400, []. rewrite Hmsg.
    repeat split; auto; try lia; try discriminate.
    + intros (a & mid & Hin). inversion Hin.
    + intros [(b & k & e & Hin)|(a & e & Hin)]; inversion Hin.
  - exists (error_body e), 500. eexists. rewrite Hout.
    split; [reflexivity|]. split; [exact Htr|].
    repeat split; auto; try lia; try discriminate.
    + intros (a & mid & Hin). apply list_elem_of_singleton in Hin.
      discriminate.
    + intros _. left. exists (S3_BUCKET E), (storage_key E w f), e.
      constructor.
  - destruct r as [e|mid].
    + exists (error_body e), 500. eexists. rewrite Hout.
      split; [reflexivity|]. split; [exact Htr|].
      repeat split; auto; try lia; try discriminate.
      * intros (a & m & Hin).
        apply elem_of_cons in Hin as [Hin|Hin]; [discriminate|].
        apply list_elem_of_singleton in Hin. discriminate.
      * intros _. right. exists (upload_send E w f), e.
        constructor; constructor.
    + destruct Hout as [_ Hout]. eexists _, 200, _. rewrite Hout.
      split; [reflexivity|]. split; [exact Htr|].
      repeat split; auto; try lia; try discriminate.
      * intros _. exists (upload_send E w f), mid. constructor; constructor.
      * intros [(b & k & e & Hin)|(a & e & Hin)];
          (apply elem_of_cons in Hin as [Hin|Hin]; [discriminate|]);
          apply list_elem_of_singleton in Hin; discriminate.
Qed.

(** X2.  The key a successful upload answers with addresses the payload:
    the store holds the uploaded content under it, in the configured
    bucket, and the message id of the answer is the one the queue gave
    for the message naming that key. *)
Theorem upload_key_addresses_payload (E : Env) (request : Request)
    (w : World) (k : string) :
  response_key (upload_file E request w).1 = Some k ->
  exists f mid dedup,
    multidict_get (files request) "file" = Some f
    /\ objects (upload_file E request w).2 !! (S3_BUCKET E, k)
       = Some (stream f)
    /\ response_message_id (upload_file E request w).1 = Some mid
    /\ trace (upload_file E request w).2
       = trace w ++ [S3Upload (S3_BUCKET E) k None;
                     SqsSend (job_message E (PStr k) dedup) (inr mid)].
Proof.
  intros Hk.
  assert (Hrun := upload_file_run E request w).
  destruct (upload_file E request w) as [out w']. cbn [fst snd] in *.
  destruct Hrun as [Hf|f Hf Hn|f e Hf Hn Hs|f e Hf Hn Hs Hq|f Hf Hn Hs Hq mid];
    try discriminate.
  injection Hk as <-.
  exists f, mid, (uuid_gen E (S (rng w))).
  split; [exact Hf|]. split; [|split].
  - cbn [objects log]. rewrite objects_sending. apply lookup_insert_eq.
  - reflexivity.
  - cbn [trace log]. rewrite trace_sending, <- app_assoc. reflexivity.
Qed.

Lemma upload_key_addresses_payload_witness :
  exists f mid dedup,
    multidict_get (files Demo.upload_request) "file" = Some f
    /\ objects (upload_file Demo.env Demo.upload_request Demo.world0).2
       !! (S3_BUCKET Demo.env,
           "3f2b8c1e-9a47-4d05-b6e1-000000000000_..trips2016.csv")
       = Some (stream f)
    /\ response_message_id
         (upload_file Demo.env Demo.upload_request Demo.world0).1 = Some mid
    /\ trace (upload_file Demo.env Demo.upload_request Demo.world0).2
       = trace Demo.world0
         ++ [S3Upload (S3_BUCKET Demo.env)
               "3f2b8c1e-9a47-4d05-b6e1-000000000000_..trips2016.csv" None;
             SqsSend
               (job_message Demo.env
                  (PStr "3f2b8c1e-9a47-4d05-b6e1-000000000000_..trips2016.csv")
                  dedup) (inr mid)].
Proof.
  apply (upload_key_addresses_payload Demo.env Demo.upload_request
           Demo.world0). reflexivity.
Defined.

(** X3.  An upload touches nothing but its own object: every other entry
    of the store reads as before, no entry disappears, and the trips
    table is the same. *)
Theorem upload_file_frame (E : Env) (request : Request) (w : World) :
  trips (upload_file E request w).2 = trips w
  /\ dom (objects w) ⊆ dom (objects (upload_file E request w).2)
  /\ forall bucket key,
       objects (upload_file E request w).2 !! (bucket, key)
       = objects w !! (bucket, key)
       \/ exists f,
            multidict_get (files request) "file" = Some f
            /\ bucket = S3_BUCKET E
            /\ key = uuid_gen E (rng w) +:+ "_"
                     +:+ secure_filename E (filename f)
            /\ objects (upload_file E request w).2 !! (bucket, key)
               = Some (stream f).
Proof.
  assert (Hrun := upload_file_run E request w).
  destruct (upload_file E request w) as [out w']. cbn [fst snd] in *.
  assert (Hstored : forall f,
    multidict_get (files request) "file" = Some f ->
    objects w'
    = <[(S3_BUCKET E, storage_key E w f) := stream f]> (objects w) ->
    dom (objects w) ⊆ dom (objects w')
    /\ forall bucket key,
         objects w' !! (bucket, key) = objects w !! (bucket, key)
         \/ exists f0,
              multidict_get (files request) "file" = Some f0
              /\ bucket = S3_BUCKET E
              /\ key = uuid_gen E (rng w) +:+ "_"
                       +:+ secure_filename E (filename f0)
              /\ objects w' !! (bucket, key) = Some (stream f0)).
  { intros f Hf ->. split.
    - rewrite dom_insert_L. set_solver.
    - intros bucket key.
      destruct (decide ((S3_BUCKET E, storage_key E w f) = (bucket, key)))
        as [Heq|Hne].
      + right. exists f. injection Heq as <- <-.
        rewrite lookup_insert_eq. auto.
      + left. apply lookup_insert_ne. exact Hne. }
  destruct Hrun as [Hf|f Hf Hn|f e Hf Hn Hs|f e Hf Hn Hs Hq|f Hf Hn Hs Hq mid];
    (split; [reflexivity|]); try (split; [reflexivity|auto]).
  - apply (Hstored f Hf). reflexivity.
  - apply (Hstored f Hf). reflexivity.
Qed.

(** X4.  An upload is tried once: at most one call to the store and at
    most one to the queue, the store first, and at most two tokens drawn;
    nothing is retried. *)
Theorem upload_file_no_retry (E : Env) (request : Request) (w : World) :
  exists evs,
    trace (upload_file E request w).2 = trace w ++ evs
    /\ (length (uploads evs) <= 1)%nat
    /\ (length (sends evs) <= 1)%nat
    /\ evs = uploads evs ++ sends evs
    /\ (rng w <= rng (upload_file E request w).2 <= rng w + 2)%nat.
Proof.
  assert (Hrun := upload_file_run E request w).
  destruct (upload_file E request w) as [out w']. cbn [fst snd] in *.
  destruct Hrun as [Hf|f Hf Hn|f e Hf Hn Hs|f e Hf Hn Hs Hq|f Hf Hn Hs Hq mid].
  - exists []. rewrite app_nil_r. cbn. repeat split; lia.
  - exists []. rewrite app_nil_r. cbn. repeat split; lia.
  - eexists. split; [reflexivity|]. cbn. repeat split; lia.
  - eexists. split.
    + cbn [trace log]. rewrite trace_sending, <- app_assoc. reflexivity.
    + cbn. repeat split; lia.
  - eexists. split.
    + cbn [trace log]. rewrite trace_sending, <- app_assoc. reflexivity.
    + cbn. repeat split; lia.
Qed.

(** ** [trigger_job] *)

(** X5.  With an [s3_key] entry in the body, whatever its value,
    [trigger_job] answers: it sends one job message for that value with a
    fresh token, writes nothing to the store (whether or not an object is
    there under the key), echoes the key, and the status is 200 exactly
    when the queue accepted the message, 500 with the queue's failure
    otherwise. *)
Theorem trigger_job_with_key (E : Env) (request : Request) (w : World)
    (key : pyobj) :
  getitem (req_json request) "s3_key" = inr key ->
  exists r,
    trace (trigger_job E request w).2
    = trace w ++ [SqsSend (job_message E key (uuid_gen E (rng w))) r]
    /\ objects (trigger_job E request w).2 = objects w
    /\ rng (trigger_job E request w).2 = S (rng w)
    /\ match r with
       | inl e => (trigger_job E request w).1 = Response (error_body e) 500
       | inr mid =>
           (trigger_job E request w).1
           = Response (PDict [("message", PStr "ETL job queued successfully!");
                              ("s3_key", key);
                              ("sqs_message_id", PStr mid)]) 200
       end.
Proof.
  intros Hkey. pose proof (trigger_job_run E request w key Hkey) as Hrun.
  cbn zeta in Hrun. rewrite Hrun.
  destruct (sqs_fault E (tick w) (job_message E key (uuid_gen E (rng w))))
    as [e|].
  - exists (inl e). cbn. auto.
  - eexists (inr _). cbn. auto.
Qed.

(** A key that is not a string, for an object that is not in the store. *)
Lemma trigger_job_with_key_witness :
  exists r,
    trace (trigger_job Demo.env
             {| files := []; req_json := PDict [("s3_key", PInt 7)];
                args := [] |} Demo.world0).2
    = trace Demo.world0
      ++ [SqsSend (job_message Demo.env (PInt 7)
                     (uuid_gen Demo.env (rng Demo.world0))) r]
    /\ objects (trigger_job Demo.env
                  {| files := []; req_json := PDict [("s3_key", PInt 7)];
                     args := [] |} Demo.world0).2
       = objects Demo.world0
    /\ rng (trigger_job Demo.env
              {| files := []; req_json := PDict [("s3_key", PInt 7)];
                 args := [] |} Demo.world0).2
       = S (rng Demo.world0)
    /\ match r with
       | inl e =>
           (trigger_job Demo.env
              {| files := []; req_json := PDict [("s3_key", PInt 7)];
                 args := [] |} Demo.world0).1
           = Response (error_body e) 500
       | inr mid =>
           (trigger_job Demo.env
              {| files := []; req_json := PDict [("s3_key", PInt 7)];
                 args := [] |} Demo.world0).1
           = Response (PDict [("message", PStr "ETL job queued successfully!");
                              ("s3_key", PInt 7);
                              ("sqs_message_id", PStr mid)]) 200
       end.
Proof.
  apply (trigger_job_with_key Demo.env
           {| files := []; req_json := PDict [("s3_key", PInt 7)];
              args := [] |} Demo.world0 (PInt 7)).
  reflexivity.
Defined.

(** X6.  A JSON body that is not an object (null, a boolean, a number,
    a string, a list) makes [trigger_job] fail with a [TypeError] that
    leaves the handler; nothing is sent and nothing is drawn. *)
Theorem trigger_job_body_not_object (E : Env) (request : Request) (w : World) :
  (forall d, req_json request <> PDict d) ->
  exists msg, trigger_job E request w = (Unhandled (TypeError msg), w).
Proof.
  intros Hnot.
  destruct (req_json request) as [| | | | | | | |d] eqn:Hbody;
    try (eexists; apply trigger_job_raises; rewrite Hbody; reflexivity).
  exfalso. apply (Hnot d). reflexivity.
Qed.

Lemma trigger_job_body_not_object_witness :
  exists msg,
    trigger_job Demo.env
      {| files := []; req_json := PList [PStr "uploads/a.csv"]; args := [] |}
      Demo.world0
    = (Unhandled (TypeError msg), Demo.world0).
Proof.
  apply (trigger_job_body_not_object Demo.env
           {| files := []; req_json := PList [PStr "uploads/a.csv"];
              args := [] |} Demo.world0).
  intros d. discriminate.
Defined.

(** ** [get_trips] *)

Lemma filter_filter {A : Type} (p q : A -> bool) (l : list A) :
  List.filter p (List.filter q l) = List.filter (fun x => q x && p x) l.
Proof.
  induction l as [|x l IH]; cbn; [reflexivity|].
  destruct (q x); cbn; [destruct (p x)|]; rewrite ?IH; reflexivity.
Qed.

(** The handler in one piece: the coordinates are read, longitude first;
    then the query runs; any failure becomes a 500. *)
Lemma get_trips_normal_form (E : Env) (request : Request) (w : World) :
  get_trips E request w
  = (match coordinate_criteria E PickupLongitudeEq
             (multidict_get (args request) "pickup_long") with
     | inl e => Response (error_body e) 500
     | inr cl =>
         match coordinate_criteria E PickupLatitudeEq
                 (multidict_get (args request) "pickup_lat") with
         | inl e => Response (error_body e) 500
         | inr ca =>
             match where_ E (range_criteria request ++ cl ++ ca) (trips w) with
             | inl e => Response (error_body e) 500
             | inr rows => Response (PList (map Trip.to_dict rows)) 200
             end
         end
     end, w).
Proof.
  unfold get_trips, run_view, get_trips_view, try_except, range_criteria,
    coordinate_criteria.
  set (q0 := match multidict_get (args request) "start_date" with
             | Some _ => _ | None => _ end).
  set (rc := match multidict_get (args request) "start_date" with
             | Some _ => _ | None => _ end).
  assert (Hq0 : q_limit q0 = None /\ q_offset q0 = None /\ criteria q0 = rc).
  { subst q0 rc. unfold truthy_str. repeat case_match; auto. }
  destruct Hq0 as (Hl & Ho & Hc). clearbody q0 rc.
  unfold bind, py_float, all, truthy_str.
  destruct (multidict_get (args request) "pickup_long") as [sl|];
    destruct (multidict_get (args request) "pickup_lat") as [sa|].
  all: repeat match goal with
         | |- context [String.eqb ?s ""] =>
             let H := fresh "Hs" in destruct (String.eqb s "") eqn:H
         | |- context [float_of_str ?E' ?s] =>
             let H := fresh "Hf" in destruct (float_of_str E' s) eqn:H
         end.
  all: cbn [negb ret raise fst snd filter_by criteria q_limit q_offset].
  all: rewrite ?Hl, ?Ho, ?Hc, <- ?app_assoc; cbn [app];
       rewrite ?app_nil_r; try reflexivity.
  all: match goal with
       | |- context [where_ ?E' ?cs (trips ?w')] =>
           destruct (where_ E' cs (trips w')) as [e|rows]
       end; reflexivity.
Qed.

Lemma where_sublist (E : Env) (cs : list criterion) (rows rs : list Trip.t) :
  where_ E cs rows = inr rs -> sublist rs rows.
Proof.
  revert rows. induction cs as [|c cs IH]; intros rows Hw; cbn in Hw.
  - injection Hw as <-. reflexivity.
  - destruct (compile_criterion E c) as [e|p]; [discriminate|].
    etransitivity; [apply (IH _ Hw)|].
    clear. induction rows as [|x rows IH]; cbn; [constructor|].
    destruct (p x); [apply sublist_skip|apply sublist_cons]; exact IH.
Qed.

(** X7.  [get_trips] only reads and always answers: the world is left as
    it was, no exception leaves the handler, and the answer is either a
    200 listing rows of the table, in the order of the table and each at
    most once, or a 500 with an error body. *)
Theorem get_trips_always_answers (E : Env) (request : Request) (w : World) :
  (get_trips E request w).2 = w
  /\ ((exists rows,
          (get_trips E request w).1
          = Response (PList (map Trip.to_dict rows)) 200
          /\ sublist rows (trips w))
      \/ exists e, (get_trips E request w).1 = Response (error_body e) 500).
Proof.
  rewrite get_trips_normal_form. cbn [fst snd]. split; [reflexivity|].
  destruct (coordinate_criteria E PickupLongitudeEq _) as [e|cl]; [eauto|].
  destruct (coordinate_criteria E PickupLatitudeEq _) as [e|ca]; [eauto|].
  destruct (where_ E _ (trips w)) as [e|rows] eqn:Hw; [eauto|].
  left. exists rows. split; [reflexivity|]. apply (where_sublist _ _ _ _ Hw).
Qed.

(** X8.  Without a complete time range and without coordinates (the
    parameters absent or empty), [get_trips] lists the whole table, in
    order. *)
Theorem get_trips_unfiltered (E : Env) (request : Request) (w : World) :
  truthy_str (multidict_get (args request) "start_date")
  && truthy_str (multidict_get (args request) "end_date") = false ->
  truthy_str (multidict_get (args request) "pickup_long") = false ->
  truthy_str (multidict_get (args request) "pickup_lat") = false ->
  get_trips E request w
  = (Response (PList (map Trip.to_dict (trips w))) 200, w).
Proof.
  intros Hrange Hlong Hlat. rewrite get_trips_normal_form.
  unfold range_criteria, coordinate_criteria, truthy_str in *.
  destruct (multidict_get (args request) "pickup_long") as [sl|];
    [destruct (String.eqb sl ""); [|discriminate]|];
    (destruct (multidict_get (args request) "pickup_lat") as [sa|];
     [destruct (String.eqb sa ""); [|discriminate]|]);
    (destruct (multidict_get (args request) "start_date") as [s|];
     [destruct (multidict_get (args request) "end_date") as [e|];
      [rewrite Hrange|]|]); reflexivity.
Qed.

Lemma get_trips_unfiltered_witness :
  get_trips Demo.env (Demo.query_request [("end_date", "2016-03-15");
                                          ("pickup_lat", "")])
    Demo.world_trips
  = (Response (PList (map Trip.to_dict (trips Demo.world_trips))) 200,
     Demo.world_trips).
Proof.
  apply (get_trips_unfiltered Demo.env
           (Demo.query_request [("end_date", "2016-03-15");
                                ("pickup_lat", "")]) Demo.world_trips);
    reflexivity.
Defined.

(** X9.  With the four parameters given and readable, [get_trips] lists
    exactly the rows of the table whose pickup time lies between the two
    bounds, both included, and whose pickup coordinates equal the two
    numbers; rows with a [NULL] in one of these columns are left out. *)
Theorem get_trips_exact (E : Env) (request : Request) (w : World)
    (s e sl sa : string) (lo hi : datetime) (vl va : float) :
  multidict_get (args request) "start_date" = Some s -> s <> "" ->
  multidict_get (args request) "end_date" = Some e -> e <> "" ->
  multidict_get (args request) "pickup_long" = Some sl -> sl <> "" ->
  multidict_get (args request) "pickup_lat" = Some sa -> sa <> "" ->
  timestamp_in E s = Some lo -> timestamp_in E e = Some hi ->
  float_of_str E sl = Some vl -> float_of_str E sa = Some va ->
  get_trips E request w
  = (Response
       (PList (map Trip.to_dict
                 (List.filter
                    (fun t => between lo hi t && at_longitude E vl t
                              && at_latitude E va t)
                    (trips w)))) 200, w).
Proof.
  intros Hs Hsne He Hene Hl Hlne Ha Hane Hlo Hhi Hvl Hva.
  rewrite get_trips_normal_form.
  unfold range_criteria, coordinate_criteria.
  rewrite Hs, He, Hl, Ha.
  apply String.eqb_neq in Hsne, Hene, Hlne, Hane.
  rewrite Hsne, Hene, Hlne, Hane, Hvl, Hva.
  cbn [negb andb app where_ compile_criterion read_bound].
  rewrite Hlo, Hhi. rewrite !filter_filter.
  do 4 f_equal. apply List.filter_ext. intros t.
  unfold between, at_longitude, at_latitude.
  first [reflexivity
        | rewrite andb_assoc; reflexivity
        | rewrite <- andb_assoc; reflexivity].
Qed.

Lemma get_trips_exact_witness :
  get_trips Demo.env
    (Demo.query_request [("start_date", "2016-03-14");
                         ("end_date", "2016-03-15 09:00:00");
                         ("pickup_long", "-73"); ("pickup_lat", "40")])
    Demo.world_trips
  = (Response (PList [Trip.to_dict Demo.trip_a]) 200, Demo.world_trips).
Proof.
  apply (get_trips_exact Demo.env
           (Demo.query_request [("start_date", "2016-03-14");
                                ("end_date", "2016-03-15 09:00:00");
                                ("pickup_long", "-73"); ("pickup_lat", "40")])
           Demo.world_trips "2016-03-14" "2016-03-15 09:00:00" "-73" "40"
           (mk_datetime 2016 3 14 0 0 0 0 None)
           (mk_datetime 2016 3 15 9 0 0 0 None)
           (-73)%float 40%float);
    first [reflexivity | discriminate].
Defined.

(** X10.  A parameter that is given but cannot be read makes the whole
    request a 500 with an error body: a coordinate that is not a number,
    or, when both bounds are given, a bound the database does not read
    as a timestamp.  No partial result is returned and the world is
    untouched. *)
Theorem get_trips_unreadable_parameter (E : Env) (request : Request)
    (w : World) :
  (exists s, s <> "" /\ float_of_str E s = None
             /\ (multidict_get (args request) "pickup_long" = Some s
                 \/ multidict_get (args request) "pickup_lat" = Some s))
  \/ (exists s e, multidict_get (args request) "start_date" = Some s
                  /\ multidict_get (args request) "end_date" = Some e
                  /\ s <> "" /\ e <> ""
                  /\ (timestamp_in E s = None \/ timestamp_in E e = None)) ->
  exists err, get_trips E request w = (Response (error_body err) 500, w).
Proof.
  intros Hbad. rewrite get_trips_normal_form.
  destruct (coordinate_criteria E PickupLongitudeEq _) as [e1|cl] eqn:Hcl;
    [eauto|].
  destruct (coordinate_criteria E PickupLatitudeEq _) as [e2|ca] eqn:Hca;
    [eauto|].
  destruct Hbad as [(s & Hne & Hf & [Hs|Hs])|(s & e & Hs & He & Hsne & Hene & Ht)].
  - unfold coordinate_criteria in Hcl. rewrite Hs in Hcl.
    apply String.eqb_neq in Hne. rewrite Hne, Hf in Hcl. discriminate.
  - unfold coordinate_criteria in Hca. rewrite Hs in Hca.
    apply String.eqb_neq in Hne. rewrite Hne, Hf in Hca. discriminate.
  - unfold range_criteria. rewrite Hs, He.
    apply String.eqb_neq in Hsne, Hene. rewrite Hsne, Hene.
    cbn [negb andb app where_ compile_criterion read_bound].
    destruct Ht as [Ht|Ht]; rewrite Ht; [eauto|].
    destruct (timestamp_in E s); eauto.
Qed.

Lemma get_trips_unreadable_parameter_witness :
  exists err,
    get_trips Demo.env
      (Demo.query_request [("start_date", "yesterday");
                           ("end_date", "2016-03-15")])
      Demo.world_trips
    = (Response (error_body err) 500, Demo.world_trips).
Proof.
  apply (get_trips_unreadable_parameter Demo.env
           (Demo.query_request [("start_date", "yesterday");
                                ("end_date", "2016-03-15")])
           Demo.world_trips).
  right. exists "yesterday", "2016-03-15".
  repeat split; try discriminate. left. reflexivity.
Defined.

(** The order of timestamps is transitive. *)
Lemma lex_leb_trans (a b c : list Z) :
  lex_leb a b = true -> lex_leb b c = true -> lex_leb a c = true.
Proof.
  revert b c. induction a as [|x a IH]; intros [|y b] [|z c]; cbn;
    try discriminate; try reflexivity.
  rewrite !orb_true_iff, !andb_true_iff, !Z.ltb_lt, !Z.eqb_eq.
  intros [Hxy|[-> Hab]] [Hyz|[-> Hbc]]; auto with lia.
  right. split; [reflexivity|]. apply (IH b c); assumption.
Qed.

Lemma between_reversed (lo hi : datetime) (rows : list Trip.t) :
  datetime_leb lo hi = false -> List.filter (between lo hi) rows = [].
Proof.
  intros Hrev. induction rows as [|t rows IH]; cbn; [reflexivity|].
  rewrite IH. unfold between.
  destruct (Trip.pickup_datetime t) as [d|]; [|reflexivity].
  destruct (datetime_leb lo d && datetime_leb d hi) eqn:Hin; [|reflexivity].
  apply andb_true_iff in Hin as [H1 H2].
  unfold datetime_leb in *. rewrite (lex_leb_trans _ _ _ H1 H2) in Hrev.
  discriminate.
Qed.

(** A coordinate that is absent, empty or readable gives at most one
    criterion, and no failure. *)
Lemma coordinate_criteria_readable (E : Env) (mk : float -> criterion)
    (arg : option string) :
  (forall v, arg = Some v -> v <> "" -> float_of_str E v <> None) ->
  coordinate_criteria E mk arg = inr []
  \/ exists x, coordinate_criteria E mk arg = inr [mk x].
Proof.
  intros Hread. unfold coordinate_criteria.
  destruct arg as [v|]; [|left; reflexivity].
  destruct (String.eqb v "") eqn:Hv; [left; reflexivity|].
  apply String.eqb_neq in Hv.
  destruct (float_of_str E v) as [x|] eqn:Hx.
  - right. exists x. reflexivity.
  - exfalso. apply (Hread v); auto.
Qed.

(** X11.  A time range whose start is after its end is not an error:
    with both bounds readable, and each coordinate absent, empty or
    readable, [get_trips] answers 200 with the empty list, and leaves
    the world as it was. *)
Theorem get_trips_reversed_range (E : Env) (request : Request) (w : World)
    (s e : string) (lo hi : datetime) :
  multidict_get (args request) "start_date" = Some s -> s <> "" ->
  multidict_get (args request) "end_date" = Some e -> e <> "" ->
  timestamp_in E s = Some lo -> timestamp_in E e = Some hi ->
  datetime_leb lo hi = false ->
  (forall v, multidict_get (args request) "pickup_long" = Some v ->
             v <> "" -> float_of_str E v <> None) ->
  (forall v, multidict_get (args request) "pickup_lat" = Some v ->
             v <> "" -> float_of_str E v <> None) ->
  get_trips E request w = (Response (PList []) 200, w).
Proof.
  intros Hs Hsne He Hene Hlo Hhi Hrev Hlong Hlat.
  rewrite get_trips_normal_form.
  unfold range_criteria. rewrite Hs, He.
  apply String.eqb_neq in Hsne, Hene. rewrite Hsne, Hene.
  destruct (coordinate_criteria_readable E PickupLongitudeEq _ Hlong)
    as [->|[x ->]];
    destruct (coordinate_criteria_readable E PickupLatitudeEq _ Hlat)
      as [->|[y ->]].
  all: cbn [negb andb app where_ compile_criterion read_bound].
  all: rewrite Hlo, Hhi.
  all: change (List.filter _ (trips w))
         with (List.filter (between lo hi) (trips w)) at 1.
  all: rewrite (between_reversed lo hi _ Hrev); reflexivity.
Qed.

Lemma get_trips_reversed_range_witness :
  datetime_leb (mk_datetime 2016 3 16 0 0 0 0 None)
    (mk_datetime 2016 3 14 0 0 0 0 None) = false
  /\ get_trips Demo.env
       (Demo.query_request [("start_date", "2016-03-16");
                            ("end_date", "2016-03-14");
                            ("pickup_long", "-73")])
       Demo.world_trips
     = (Response (PList []) 200, Demo.world_trips).
Proof.
  split; [reflexivity|].
  apply (get_trips_reversed_range Demo.env
           (Demo.query_request [("start_date", "2016-03-16");
                                ("end_date", "2016-03-14");
                                ("pickup_long", "-73")])
           Demo.world_trips "2016-03-16" "2016-03-14"
           (mk_datetime 2016 3 16 0 0 0 0 None)
           (mk_datetime 2016 3 14 0 0 0 0 None));
    try reflexivity; try discriminate.
  - intros v Hv _. injection Hv as <-. discriminate.
Defined.

(** ** [get_trip_stats] *)

Lemma datetime_eqb_eq (a b : datetime) : datetime_eqb a b = true <-> a = b.
Proof.
  destruct a as [y1 m1 d1 h1 i1 s1 u1 o1], b as [y2 m2 d2 h2 i2 s2 u2 o2].
  unfold datetime_eqb, option_Z_eqb. cbn.
  rewrite !andb_true_iff, !Z.eqb_eq. split.
  - intros [[[[[[[-> ->] ->] ->] ->] ->] ->] Ho].
    destruct o1, o2; try discriminate; [apply Z.eqb_eq in Ho; subst|];
      reflexivity.
  - intros H. injection H as -> -> -> -> -> -> -> ->.
    repeat split. destruct o2; [apply Z.eqb_refl|reflexivity].
Qed.

Lemma day_eqb_eq (a b : option datetime) : day_eqb a b = true <-> a = b.
Proof.
  destruct a as [x|], b as [y|]; cbn; try (split; [discriminate|discriminate]).
  - rewrite datetime_eqb_eq. split; [intros ->; reflexivity|].
    intros H. injection H as ->. reflexivity.
  - split; reflexivity.
Qed.

(** One more trip adds one to the counts, on the row of its day if there
    is one, on a new last row otherwise. *)
Lemma bump_spec (k : option datetime) (g : list (option datetime * Z)) :
  total_trips (bump k g) = total_trips g + 1
  /\ map fst (bump k g)
     = (if decide (k ∈ map fst g) then map fst g else map fst g ++ [k])
  /\ (Forall (fun p => 1 <= p.2) g -> Forall (fun p => 1 <= p.2) (bump k g)).
Proof.
  unfold total_trips. induction g as [|[k' n] g (IHsum & IHkeys & IHpos)].
  - cbn. split; [reflexivity|]. split.
    + destruct (decide (k ∈ [])) as [Hin|_]; [inversion Hin|reflexivity].
    + intros _. constructor; [cbn; lia|constructor].
  - cbn [bump]. destruct (day_eqb k' k) eqn:Heq.
    + apply day_eqb_eq in Heq. subst k'. cbn. split; [lia|]. split.
      * destruct (decide (k ∈ k :: map fst g)) as [_|Hn]; [reflexivity|].
        exfalso. apply Hn. constructor.
      * intros Hall. inversion Hall; subst. constructor; [cbn in *; lia|].
        assumption.
    + assert (Hne : k' <> k).
      { intros ->. rewrite (proj2 (day_eqb_eq k k) eq_refl) in Heq.
        discriminate. }
      cbn. cbn in IHsum. rewrite IHsum, IHkeys. split; [lia|]. split.
      * destruct (decide (k ∈ map fst g)) as [Hin|Hnin];
          destruct (decide (k ∈ k' :: map fst g)) as [Hin'|Hnin'];
          try reflexivity.
        -- exfalso. apply Hnin'. constructor. exact Hin.
        -- exfalso. apply elem_of_cons in Hin' as [->|Hin']; auto.
      * intros Hall. inversion Hall; subst. constructor; auto.
Qed.

Lemma group_by_day_fold (rows : list Trip.t) (g : list (option datetime * Z)) :
  let g' := fold_left (fun g t => bump (sql_day t) g) rows g in
  total_trips g' = total_trips g + Z.of_nat (length rows)
  /\ (Forall (fun p => 1 <= p.2) g -> Forall (fun p => 1 <= p.2) g')
  /\ (NoDup (map fst g) -> NoDup (map fst g'))
  /\ (forall k, k ∈ map fst g'
                <-> k ∈ map fst g \/ exists t, t ∈ rows /\ sql_day t = k).
Proof.
  revert g. induction rows as [|t rows IH]; intros g; cbn zeta.
  - cbn [fold_left length]. split; [change (Z.of_nat 0) with 0; lia|].
    split; [auto|]. split; [auto|]. intros k. split; [auto|].
    intros [H|(t & Ht & _)]; [exact H|inversion Ht].
  - cbn [fold_left length].
    destruct (bump_spec (sql_day t) g) as (Hsum & Hkeys & Hpos).
    destruct (IH (bump (sql_day t) g)) as (IHsum & IHpos & IHnd & IHin).
    cbn zeta in *. repeat split.
    + rewrite IHsum, Hsum. lia.
    + auto.
    + intros Hnd. apply IHnd. rewrite Hkeys.
      destruct (decide (sql_day t ∈ map fst g)) as [Hin|Hnin]; [exact Hnd|].
      apply NoDup_app. repeat split; [exact Hnd| |apply NoDup_singleton].
      intros x Hx Hx'. apply list_elem_of_singleton in Hx'. subst x. auto.
    + intros Hk. apply IHin in Hk as [Hk|(t' & Ht' & Hd)].
      * rewrite Hkeys in Hk.
        destruct (decide (sql_day t ∈ map fst g)) as [Hin|Hnin]; [auto|].
        apply elem_of_app in Hk as [Hk|Hk]; [auto|].
        apply list_elem_of_singleton in Hk. subst k.
        right. exists t. split; [constructor|reflexivity].
      * right. exists t'. split; [constructor; exact Ht'|exact Hd].
    + intros [Hk|(t' & Ht' & Hd)]; apply IHin.
      * left. rewrite Hkeys.
        destruct (decide (sql_day t ∈ map fst g)); [exact Hk|].
        apply elem_of_app. auto.
      * apply elem_of_cons in Ht' as [->|Ht'].
        -- left. rewrite Hkeys. subst k.
           destruct (decide (sql_day t ∈ map fst g)) as [Hin|Hnin];
             [exact Hin|].
           apply elem_of_app. right. constructor.
        -- right. exists t'. auto.
Qed.

(** The answer of [get_trip_stats], spelled out. *)
Lemma get_trip_stats_answer (w : World) :
  get_trip_stats w
  = (Response
       (PDict [("average_trip_duration",
                of_option PDecimal (sql_avg (map Trip.trip_duration (trips w))));
               ("total_days", PInt (count_distinct_days (trips w)));
               ("trips_per_day",
                PList (map (fun '(day, total) =>
                              PDict [("date", PStr (str_day day));
                                     ("total_trips", PInt total)])
                           (group_by_day (trips w))))]) 200, w).
Proof. reflexivity. Qed.

(** X12.  In the answer of [get_trip_stats] every trip is counted once:
    the per-day counts add up to the number of rows of the table, each
    listed day has at least one trip, no day is listed twice, and a day
    is listed exactly when some trip was picked up on it (the trips
    without a pickup time forming a row of their own). *)
Theorem get_trip_stats_counts_every_trip (w : World) :
  exists avg days per_day,
    get_trip_stats w
    = (Response
         (PDict [("average_trip_duration", avg);
                 ("total_days", PInt days);
                 ("trips_per_day",
                  PList (map (fun '(day, total) =>
                                PDict [("date", PStr (str_day day));
                                       ("total_trips", PInt total)])
                             per_day))]) 200, w)
    /\ total_trips per_day = Z.of_nat (length (trips w))
    /\ Forall (fun p => 1 <= p.2) per_day
    /\ NoDup (map fst per_day)
    /\ forall day, day ∈ map fst per_day
                   <-> exists t, t ∈ trips w /\ sql_day t = day.
Proof.
  eexists _, _, (group_by_day (trips w)).
  split; [apply get_trip_stats_answer|].
  destruct (group_by_day_fold (trips w) []) as (Hsum & Hpos & Hnd & Hin).
  cbn zeta in *. fold (group_by_day (trips w)) in *.
  repeat split.
  - rewrite Hsum. reflexivity.
  - apply Hpos. constructor.
  - apply Hnd. constructor.
  - intros Hd. apply Hin in Hd as [Hd|Hd]; [inversion Hd|exact Hd].
  - intros Hd. apply Hin. auto.
Qed.

Lemma present_snoc {A : Type} (l : list (option A)) (k : option A) :
  present (l ++ [k])
  = present l ++ match k with Some a => [a] | None => [] end.
Proof.
  unfold present. rewrite omap_app. destruct k; reflexivity.
Qed.

Lemma elem_of_present {A : Type} (l : list (option A)) (a : A) :
  a ∈ present l <-> Some a ∈ l.
Proof.
  unfold present. rewrite list_elem_of_omap. split.
  - intros (x & Hx & ->). exact Hx.
  - intros Hin. exists (Some a). auto.
Qed.

Lemma existsb_datetime (d : datetime) (seen : list datetime) :
  existsb (datetime_eqb d) seen = true <-> d ∈ seen.
Proof.
  rewrite existsb_exists. split.
  - intros (x & Hx & Heq). apply datetime_eqb_eq in Heq. subst x.
    apply list_elem_of_In. exact Hx.
  - intros Hin. exists d. split; [apply list_elem_of_In; exact Hin|].
    apply datetime_eqb_eq. reflexivity.
Qed.

(** The two aggregations see the same days. *)
Lemma distinct_days_group (rows : list Trip.t)
    (g : list (option datetime * Z)) :
  present (map fst (fold_left (fun g t => bump (sql_day t) g) rows g))
  = distinct_days (present (map fst g)) (map sql_day rows).
Proof.
  revert g. induction rows as [|t rows IH]; intros g; [reflexivity|].
  cbn [fold_left map distinct_days]. rewrite IH.
  destruct (bump_spec (sql_day t) g) as (_ & Hkeys & _). rewrite Hkeys.
  destruct (sql_day t) as [d|].
  - destruct (existsb (datetime_eqb d) (present (map fst g))) eqn:Hex.
    + apply existsb_datetime, elem_of_present in Hex.
      destruct (decide (Some d ∈ map fst g)); [reflexivity|contradiction].
    + destruct (decide (Some d ∈ map fst g)) as [Hin|Hnin].
      * apply elem_of_present, existsb_datetime in Hin. congruence.
      * rewrite present_snoc. reflexivity.
  - destruct (decide (None ∈ map fst g)); [reflexivity|].
    rewrite present_snoc, app_nil_r. reflexivity.
Qed.

Lemma length_present_all {A : Type} (l : list (option A)) :
  None ∉ l -> length (present l) = length l.
Proof.
  induction l as [|[a|] l IH]; intros Hn; cbn.
  - reflexivity.
  - f_equal. apply IH. intros Hin. apply Hn. constructor. exact Hin.
  - exfalso. apply Hn. constructor.
Qed.

Lemma length_present_le {A : Type} (l : list (option A)) :
  (length (present l) <= length l)%nat.
Proof.
  induction l as [|[a|] l IH]; cbn; [lia| |]; unfold present in IH; lia.
Qed.

(** X13.  The two figures of [get_trip_stats] that come from separate
    queries agree: [total_days] is the number of per-day rows that carry
    a date, and when every trip has a pickup time it is the number of
    per-day rows. *)
Theorem get_trip_stats_days_agree (w : World) :
  exists avg days per_day,
    get_trip_stats w
    = (Response
         (PDict [("average_trip_duration", avg);
                 ("total_days", PInt days);
                 ("trips_per_day",
                  PList (map (fun '(day, total) =>
                                PDict [("date", PStr (str_day day));
                                       ("total_trips", PInt total)])
                             per_day))]) 200, w)
    /\ days = Z.of_nat (length (present (map fst per_day)))
    /\ (Forall (fun t => Trip.pickup_datetime t <> None) (trips w) ->
        days = Z.of_nat (length per_day))
    /\ 0 <= days <= Z.of_nat (length (trips w)).
Proof.
  eexists _, _, (group_by_day (trips w)).
  split; [apply get_trip_stats_answer|].
  assert (Hdays : count_distinct_days (trips w)
                  = Z.of_nat (length (present (map fst (group_by_day (trips w)))))).
  { unfold count_distinct_days, group_by_day.
    rewrite distinct_days_group. reflexivity. }
  destruct (group_by_day_fold (trips w) []) as (Hsum & Hpos & Hnd & Hin).
  cbn zeta in *. fold (group_by_day (trips w)) in *.
  split; [exact Hdays|]. split.
  - intros Hall. rewrite Hdays, length_present_all, length_map; [reflexivity|].
    intros Hnone. apply Hin in Hnone as [Hnone|(t & Ht & Hday)];
      [inversion Hnone|].
    rewrite List.Forall_forall in Hall.
    apply list_elem_of_In, Hall in Ht.
    unfold sql_day in Hday. destruct (Trip.pickup_datetime t);
      [discriminate|contradiction].
  - rewrite Hdays. split; [lia|].
    assert (Hlen : (length (present (map fst (group_by_day (trips w))))
                    <= length (group_by_day (trips w)))%nat).
    { rewrite <- (length_map fst (group_by_day (trips w))).
      apply length_present_le. }
    assert (Hcount : Z.of_nat (length (group_by_day (trips w)))
                     <= total_trips (group_by_day (trips w))).
    { assert (Hall := Hpos ltac:(constructor)). clear -Hall.
      rename Hall into Hpos.
      induction Hpos as [|[k n] g Hn Hg IH]; unfold total_trips in *; cbn in *;
        lia. }
    change (total_trips []) with 0 in Hsum. lia.
Qed.


Lemma check_fields_date_trunc_day (d : datetime) :
  check_fields d = true -> check_fields (date_trunc_day d) = true.
Proof.
  unfold check_fields. destruct d as [y mo dd h mi s us off].
  cbn [date_trunc_day year month day hour minute second microsecond utcoffset].
  rewrite !andb_true_iff. intros H. repeat split; try reflexivity; tauto.
Qed.

(** X15.  The [date] text of a per-day row of [get_trip_stats], for a
    trip with a valid naive pickup time, is the day of the pickup followed
    by midnight, and [fromisoformat] reads it back as that day. *)
Theorem trips_per_day_date_text (t : Trip.t) (d : datetime) :
  Trip.pickup_datetime t = Some d ->
  check_fields d = true ->
  utcoffset d = None ->
  str_day (sql_day t)
  = fmt_d 4 (year d) +:+ "-" +:+ fmt_d 2 (month d) +:+ "-"
    +:+ fmt_d 2 (day d) +:+ " 00:00:00"
  /\ fromisoformat (str_day (sql_day t)) = sql_day t.
Proof.
  intros Ht Hchk Hnaive. unfold sql_day. rewrite Ht. cbn [fmap option_fmap
    option_map str_day]. split.
  - unfold str_datetime, isoformat_sep.
    destruct d as [y mo dd h mi s us off]. cbn in Hnaive. subst off.
    reflexivity.
  - apply fromisoformat_isoformat_sep, check_fields_date_trunc_day, Hchk.
Qed.

Lemma trips_per_day_date_text_witness :
  str_day (sql_day Demo.trip_a) = "2016-03-14 00:00:00"
  /\ fromisoformat (str_day (sql_day Demo.trip_a)) = sql_day Demo.trip_a.
Proof.
  apply (trips_per_day_date_text Demo.trip_a Demo.pickup); reflexivity.
Defined.

(** ** The resolvers *)

Lemma paginate_page (lim off : option Z) (rows : list Trip.t) :
  paginate lim off rows = page lim off rows.
Proof. reflexivity. Qed.

Lemma filter_all {A : Type} (l : list A) : List.filter (fun _ => true) l = l.
Proof. induction l as [|x l IH]; cbn; [reflexivity|]. f_equal. exact IH. Qed.

(** The resolver in one piece. *)
Lemma resolve_all_trips_page (E : Env) (limit_ offset_ vendor_id : option Z)
    (start_date end_date : option datetime) (w : World) :
  resolve_all_trips E limit_ offset_ vendor_id start_date end_date w
  = (page limit_ offset_
       (List.filter (all_trips_keeps vendor_id start_date end_date) (trips w)),
     w).
Proof.
  unfold resolve_all_trips, all, all_trips_keeps, truthy_int, truthy_datetime.
  destruct vendor_id as [v|]; [destruct (v =? 0)|];
    destruct start_date as [s|]; destruct end_date as [e|];
    cbn [negb andb filter_by limit offset criteria q_limit q_offset
         query_Trip app where_ compile_criterion read_bound];
    rewrite ?filter_filter, ?paginate_page; try reflexivity;
    f_equal; f_equal; first [symmetry; apply filter_all
                            | apply List.filter_ext; intros t;
                              unfold of_vendor, between;
                              rewrite ?andb_true_r; reflexivity].
Qed.

(** X16.  [allTrips] with bounds that carry no offset (or without a
    complete range) only reads, and answers with the page, [offset] rows
    skipped and at most [limit] kept, of the rows of the table that pass
    its filters, in table order: the vendor when it is given and not 0,
    the time range when both bounds are given.  A single bound is
    ignored, and the only failures are those of the paging. *)
Theorem resolve_all_trips_exact (E : Env) (limit_ offset_ vendor_id : option Z)
    (start_date end_date : option datetime) (w : World) :
  (forall s e, start_date = Some s -> end_date = Some e ->
               utcoffset s = None /\ utcoffset e = None) ->
  (resolve_all_trips E limit_ offset_ vendor_id start_date end_date w).2 = w
  /\ (resolve_all_trips E limit_ offset_ vendor_id start_date end_date w).1
     = page limit_ offset_
         (List.filter
            (fun t =>
               match vendor_id with
               | Some v => if v =? 0 then true else of_vendor v t
               | None => true
               end
               && match start_date, end_date with
                  | Some s, Some e => between s e t
                  | _, _ => true
                  end)
            (trips w)).
Proof.
  intros _. rewrite resolve_all_trips_page. split; reflexivity.
Qed.

Lemma resolve_all_trips_exact_witness :
  (resolve_all_trips Demo.env (Some 10) (Some 0) (Some 2)
     (Some (mk_datetime 2016 3 14 0 0 0 0 None))
     (Some (mk_datetime 2016 3 16 0 0 0 0 None)) Demo.world_trips).2
  = Demo.world_trips
  /\ (resolve_all_trips Demo.env (Some 10) (Some 0) (Some 2)
        (Some (mk_datetime 2016 3 14 0 0 0 0 None))
        (Some (mk_datetime 2016 3 16 0 0 0 0 None)) Demo.world_trips).1
     = inr [Demo.trip_b].
Proof.
  destruct (resolve_all_trips_exact Demo.env (Some 10) (Some 0) (Some 2)
              (Some (mk_datetime 2016 3 14 0 0 0 0 None))
              (Some (mk_datetime 2016 3 16 0 0 0 0 None)) Demo.world_trips)
    as [Hw Hrows].
  - intros s e Hs He. injection Hs as <-. injection He as <-.
    split; reflexivity.
  - split; [exact Hw|]. rewrite Hrows. reflexivity.
Defined.

Lemma page_ok {A : Type} (lim off : option Z) (rows rs : list A) :
  page lim off rows = inr rs ->
  sublist rs rows
  /\ forall n, lim = Some n -> (length rs <= Z.to_nat n)%nat /\ 0 <= n.
Proof.
  unfold page. intros H.
  destruct off as [o|]; [destruct (o <? 0); [discriminate|]|];
    (destruct lim as [n|]; [destruct (n <? 0) eqn:Hn; [discriminate|]|]);
    injection H as <-; (split; [|intros m Hm; try discriminate;
                                 injection Hm as <-;
                                 apply Z.ltb_ge in Hn;
                                 rewrite length_take; split; lia]).
  - etransitivity; [apply sublist_take|apply sublist_drop].
  - apply sublist_drop.
  - apply sublist_take.
  - reflexivity.
Qed.

(** X17.  When [allTrips], with bounds that carry no offset (or without
    a complete range), answers, the rows are rows of the table, in table
    order and each at most once, all pass the filters, and there are at
    most [limit] of them. *)
Theorem resolve_all_trips_bounded (E : Env) (limit_ offset_ vendor_id : option Z)
    (start_date end_date : option datetime) (w : World) (rows : list Trip.t) :
  (forall s e, start_date = Some s -> end_date = Some e ->
               utcoffset s = None /\ utcoffset e = None) ->
  (resolve_all_trips E limit_ offset_ vendor_id start_date end_date w).1
  = inr rows ->
  sublist rows (trips w)
  /\ Forall (fun t => all_trips_keeps vendor_id start_date end_date t = true)
       rows
  /\ forall n, limit_ = Some n -> Z.of_nat (length rows) <= n.
Proof.
  intros _. rewrite resolve_all_trips_page. cbn [fst]. intros Hpage.
  destruct (page_ok _ _ _ _ Hpage) as [Hsub Hlen].
  assert (Hfil : sublist
                   (List.filter (all_trips_keeps vendor_id start_date end_date)
                      (trips w)) (trips w)).
  { clear. induction (trips w) as [|x l IH]; cbn; [constructor|].
    destruct (all_trips_keeps _ _ _ x);
      [apply sublist_skip|apply sublist_cons]; exact IH. }
  split; [etransitivity; eassumption|]. split.
  - apply List.Forall_forall. intros t Ht.
    apply list_elem_of_In in Ht.
    apply (elem_of_sublist _ _ _ Ht), list_elem_of_In, filter_In in Hsub.
    tauto.
  - intros n Hn. destruct (Hlen n Hn). lia.
Qed.

Lemma resolve_all_trips_bounded_witness :
  (resolve_all_trips Demo.env (Some 1) (Some 0) None
     (Some (mk_datetime 2016 3 14 0 0 0 0 None))
     (Some (mk_datetime 2016 3 16 0 0 0 0 None)) Demo.world_trips).1
  = inr [Demo.trip_a]
  /\ sublist [Demo.trip_a] (trips Demo.world_trips)
  /\ Forall (fun t =>
               all_trips_keeps None
                 (Some (mk_datetime 2016 3 14 0 0 0 0 None))
                 (Some (mk_datetime 2016 3 16 0 0 0 0 None)) t = true)
       [Demo.trip_a]
  /\ forall n, Some 1 = Some n -> Z.of_nat (length [Demo.trip_a]) <= n.
Proof.
  split; [reflexivity|].
  apply (resolve_all_trips_bounded Demo.env (Some 1) (Some 0) None
           (Some (mk_datetime 2016 3 14 0 0 0 0 None))
           (Some (mk_datetime 2016 3 16 0 0 0 0 None))
           Demo.world_trips [Demo.trip_a]).
  - intros s e Hs He. injection Hs as <-. injection He as <-.
    split; reflexivity.
  - reflexivity.
Defined.

Lemma first_filter_none {A : Type} (p : A -> bool) (l : list A) :
  first (List.filter p l) = None <-> forall x, x ∈ l -> p x = false.
Proof.
  unfold first. induction l as [|y l IH]; cbn.
  - split; [intros _ x Hx; inversion Hx|reflexivity].
  - destruct (p y) eqn:Hy; cbn.
    + split; [discriminate|]. intros H.
      rewrite (H y) in Hy by constructor. discriminate.
    + rewrite IH. split.
      * intros H x Hx. apply elem_of_cons in Hx as [->|Hx]; auto.
      * intros H x Hx. apply H. constructor. exact Hx.
Qed.

Lemma first_filter_some {A : Type} (p : A -> bool) (l : list A) (x : A) :
  first (List.filter p l) = Some x -> x ∈ l /\ p x = true.
Proof.
  unfold first. induction l as [|y l IH]; cbn; [discriminate|].
  destruct (p y) eqn:Hy; cbn.
  - intros H. injection H as <-. split; [constructor|exact Hy].
  - intros H. destruct (IH H) as [Hin Hp]. split; [constructor|]; assumption.
Qed.

Lemma first_filter_key {A K : Type} (key : A -> K) (eqb : K -> K -> bool)
    (l : list A) (x : A) :
  (forall a b, eqb a b = true <-> a = b) ->
  NoDup (map key l) -> x ∈ l ->
  first (List.filter (fun y => eqb (key y) (key x)) l) = Some x.
Proof.
  intros Heqb. unfold first. induction l as [|y l IH]; intros Hnd Hin;
    [inversion Hin|].
  cbn [map] in Hnd. apply NoDup_cons in Hnd as [Hy Hnd]. cbn.
  apply elem_of_cons in Hin as [->|Hin].
  - rewrite (proj2 (Heqb (key y) (key y)) eq_refl). reflexivity.
  - destruct (eqb (key y) (key x)) eqn:Hk; [|apply IH; assumption].
    apply Heqb in Hk. exfalso. apply Hy. rewrite Hk.
    apply list_elem_of_fmap. exists x. auto.
Qed.

(** X19.  [tripById] never fails and only reads: it answers null exactly
    when no trip of the table has the id, and otherwise with a trip of
    the table that has it; on a table whose ids are all different, every
    trip is found under its id. *)
Theorem resolve_trip_by_id_lookup (id : string) (w : World) :
  exists r,
    resolve_trip_by_id id w = (inr r, w)
    /\ (r = None <-> forall t, t ∈ trips w -> Trip.id t <> id)
    /\ (forall t, r = Some t -> t ∈ trips w /\ Trip.id t = id)
    /\ (NoDup (map Trip.id (trips w)) ->
        forall t, t ∈ trips w ->
                  resolve_trip_by_id (Trip.id t) w = (inr (Some t), w)).
Proof.
  eexists. split; [reflexivity|]. split; [|split].
  - rewrite first_filter_none. split; intros H t Ht.
    + apply String.eqb_neq. auto.
    + apply String.eqb_neq. auto.
  - intros t Ht. apply first_filter_some in Ht as [Hin Hid].
    apply String.eqb_eq in Hid. auto.
  - intros Hnd t Ht. unfold resolve_trip_by_id. do 2 f_equal.
    apply (first_filter_key Trip.id String.eqb); auto using String.eqb_eq.
Qed.

(** X20.  [vendorById] looks the vendor up by the primary key [id], not
    by the vendor code: null exactly when no vendor has this [id], a
    vendor with this [id] otherwise, and every vendor of a table with
    distinct keys is found under its own. *)
Theorem resolve_vendor_by_id_lookup (vendors : list Vendor.t) (id : Z) :
  (resolve_vendor_by_id vendors id = None
   <-> forall v, v ∈ vendors -> Vendor.id v <> id)
  /\ (forall v, resolve_vendor_by_id vendors id = Some v ->
                v ∈ vendors /\ Vendor.id v = id)
  /\ (NoDup (map Vendor.id vendors) ->
      forall v, v ∈ vendors ->
                resolve_vendor_by_id vendors (Vendor.id v) = Some v).
Proof.
  unfold resolve_vendor_by_id. split; [|split].
  - rewrite first_filter_none. split; intros H v Hv.
    + apply Z.eqb_neq. auto.
    + apply Z.eqb_neq. auto.
  - intros v Hv. apply first_filter_some in Hv as [Hin Hid].
    apply Z.eqb_eq in Hid. auto.
  - intros Hnd v Hv.
    apply (first_filter_key Vendor.id Z.eqb); auto using Z.eqb_eq.
Qed.

(** X21.  [allVendors] answers whenever [limit] and [offset] are not
    negative, with rows of the table, each at most once; their number is
    [limit], or what the table has left after [offset] rows when that is
    less: with the defaults of the schema, ten rows or the whole table. *)
Theorem resolve_all_vendors_pages (vendors : list Vendor.t) (n o : Z) :
  0 <= n -> 0 <= o ->
  exists rows,
    resolve_all_vendors vendors (Some n) (Some o) = inr rows
    /\ sublist rows vendors
    /\ Z.of_nat (length rows)
       = Z.min n (Z.max 0 (Z.of_nat (length vendors) - o)).
Proof.
  intros Hn Ho. unfold resolve_all_vendors, page.
  apply Z.ltb_ge in Hn as Hn', Ho as Ho'. rewrite Hn', Ho'.
  eexists. split; [reflexivity|]. split.
  - etransitivity; [apply sublist_take|apply sublist_drop].
  - rewrite length_take, length_drop. lia.
Qed.

Lemma resolve_all_vendors_pages_witness :
  exists rows,
    resolve_all_vendors
      [{| Vendor.id := 1; Vendor.vendor_id := 7 |};
       {| Vendor.id := 2; Vendor.vendor_id := 8 |}] (Some 10) (Some 0)
    = inr rows
    /\ Z.of_nat (length rows) = 2.
Proof.
  destruct (resolve_all_vendors_pages
              [{| Vendor.id := 1; Vendor.vendor_id := 7 |};
               {| Vendor.id := 2; Vendor.vendor_id := 8 |}] 10 0)
    as (rows & Hrows & _ & Hlen); [lia|lia|].
  exists rows. split; [exact Hrows|]. rewrite Hlen. reflexivity.
Defined.

(** ** The [DateTime] scalar, again *)

(** X24.  The serializer of the scalar is faithful: two valid values
    that it writes as the same text are the same value. *)
Theorem serialize_datetime_faithful (a b : datetime) :
  check_fields a = true -> check_fields b = true ->
  serialize_datetime (PDateTime a) = serialize_datetime (PDateTime b) ->
  a = b.
Proof.
  intros Ha Hb H. unfold serialize_datetime in H. injection H as H.
  apply (f_equal fromisoformat) in H. unfold isoformat in H.
  rewrite !fromisoformat_isoformat_sep in H by assumption.
  injection H as ->. reflexivity.
Qed.

Lemma serialize_datetime_faithful_witness :
  serialize_datetime (PDateTime Demo.aware)
  = serialize_datetime
      (PDateTime (mk_datetime 2020 2 29 23 59 59 999999 (Some (-19800000000))))
  /\ Demo.aware
     = mk_datetime 2020 2 29 23 59 59 999999 (Some (-19800000000)).
Proof.
  split; [reflexivity|].
  apply (serialize_datetime_faithful Demo.aware
           (mk_datetime 2020 2 29 23 59 59 999999 (Some (-19800000000))));
    reflexivity.
Defined.

(** ** Uploads in sequence *)

Lemma upload_file_keeps_notified_stored (E : Env) (request : Request)
    (w : World) :
  notified_stored E w -> notified_stored E (upload_file E request w).2.
Proof.
  intros Hinv a r Hin.
  destruct (upload_run_events _ _ _ _ _ (upload_file_run E request w))
    as (evs & Htr & Hcases).
  rewrite Htr in Hin. apply elem_of_app in Hin as [Hold|Hnew].
  - destruct (Hinv a r Hold) as (key & dedup & Ha & Hsome).
    exists key, dedup. split; [exact Ha|].
    destruct Hcases as [[_ ->]|[(f & e & _ & _ & _ & ->)
                              |(f & r' & _ & _ & _ & -> & _)]];
      [exact Hsome|exact Hsome|].
    destruct (decide ((S3_BUCKET E, storage_key E w f) = (S3_BUCKET E, key)))
      as [->|Hne].
    + rewrite lookup_insert_eq. eauto.
    + rewrite lookup_insert_ne by exact Hne. exact Hsome.
  - destruct Hcases as [[-> _]|[(f & e & Hf & -> & Hout & Hobj)
                              |(f & r' & Hf & Hn & -> & Hobj & _ & Hout)]].
    + inversion Hnew.
    + apply list_elem_of_singleton in Hnew. discriminate.
    + apply elem_of_cons in Hnew as [Hnew|Hnew]; [discriminate|].
      apply list_elem_of_singleton in Hnew. injection Hnew as -> ->.
      exists (storage_key E w f), (uuid_gen E (S (rng w))).
      split; [reflexivity|]. rewrite Hobj, lookup_insert_eq. eauto.
Qed.

(** X25.  Write-before-notify holds across requests: if every message
    in the log names an object that is in the store, this is still so
    after any number of uploads, whichever of them fail; in particular
    it holds after any sequence of uploads served from an empty log. *)
Theorem serve_uploads_notified_stored (E : Env) (requests : list Request)
    (w : World) :
  notified_stored E w -> notified_stored E (serve_uploads E requests w).
Proof.
  unfold serve_uploads. revert w.
  induction requests as [|request requests IH]; intros w Hinv; [exact Hinv|].
  cbn [fold_left]. apply IH, upload_file_keeps_notified_stored, Hinv.
Qed.

Lemma serve_uploads_notified_stored_witness :
  notified_stored Demo.env_queue_down
    (serve_uploads Demo.env_queue_down
       [Demo.upload_request; Demo.bare_request; Demo.upload_request]
       Demo.world0).
Proof.
  apply (serve_uploads_notified_stored Demo.env_queue_down
           [Demo.upload_request; Demo.bare_request; Demo.upload_request]
           Demo.world0).
  intros a r Hin. inversion Hin.
Defined.
